(** * nautilus: a shallow embedding of [nautilus.py]

    The program is a command-line front end over the Kubernetes Python
    client.  Every method of the class [DescribeK8s] performs calls into the
    client library, prints text and may raise or catch Python exceptions.

    The embedding keeps that shape:
    - the instance [self] is its attribute dictionary, a [gmap string pyval];
    - the cluster, the kubeconfig, the file system and the clock form a
      [world]: typed oracles that answer each external call from the log of
      the calls made so far, so that every behaviour of the collaborators is
      covered by quantifying over worlds;
    - a method is a computation in a state-and-exception monad [M]: the state
      holds [self], the log of external calls and the lines written to
      standard output; an exception keeps the effects made before it. *)

From Stdlib Require Import ZArith Lia Ascii String.
From stdpp Require Import base option list strings gmap pretty.

Open Scope string_scope.
Open Scope list_scope.
Open Scope Z_scope.

(** ** Text *)

Module PyStr.

(** Text is a string of bytes.  [is_ascii] holds of text whose characters
    are all ASCII (every byte below 128); on such text [lower] and
    [capitalize] below are [str.lower] and [str.capitalize]: the letters
    [A]..[Z] and [a]..[z] change case, every other character is kept.
    Python also changes the case of letters outside ASCII, which these
    definitions keep as they are: whatever is stated about lowercased text
    that is printed is stated for ASCII text.  The comparisons of the
    program are with the ASCII words [deployment], [service] and [pod], and
    no letter outside ASCII is lowered to a letter of these words. *)
Fixpoint is_ascii (s : string) : bool :=
  match s with
  | EmptyString => true
  | String c r => (N_of_ascii c <? 128)%N && is_ascii r
  end.

Definition lower_ascii (c : ascii) : ascii :=
  let n := N_of_ascii c in
  if ((65 <=? n) && (n <=? 90))%N then ascii_of_N (n + 32) else c.

Definition upper_ascii (c : ascii) : ascii :=
  let n := N_of_ascii c in
  if ((97 <=? n) && (n <=? 122))%N then ascii_of_N (n - 32) else c.

Fixpoint lower (s : string) : string :=
  match s with
  | EmptyString => EmptyString
  | String c r => String (lower_ascii c) (lower r)
  end.

Definition capitalize (s : string) : string :=
  match s with
  | EmptyString => EmptyString
  | String c r => String (upper_ascii c) (lower r)
  end.

(** The tab character, [\t] in the source. *)
Definition tab : string := String (ascii_of_N 9) EmptyString.

(** Truthiness of a [str]: the empty string is false. *)
Definition truthy (s : string) : bool :=
  match s with EmptyString => false | _ => true end.

(** [f"{x}"] for a value that is a [str] or [None]. *)
Definition fmt (o : option string) : string := default "None" o.

End PyStr.

(** ** Exceptions *)

(** The exception classes the program meets.  All of them derive from
    [Exception]; only [ApiException] is the client's [client.ApiException].
    [OtherException] stands for every further class (a connection failure of
    the HTTP layer, [ConfigException], [OSError], [YAMLError], ...). *)
Inductive exn : Type :=
| ApiException (status : Z) (msg : string)
| AttributeError (msg : string)
| KeyError (msg : string)
| TypeError (msg : string)
| OtherException (cls : string) (msg : string).

(** [str(e)], as interpolated by the [{e}] of the messages. *)
Definition exn_str (e : exn) : string :=
  match e with
  | ApiException _ m | AttributeError m | KeyError m | TypeError m
  | OtherException _ m => m
  end.

(** [except client.ApiException] *)
Definition is_ApiException (e : exn) : bool :=
  match e with ApiException _ _ => true | _ => false end.

(** [e.status == 409], for the exception bound by an
    [except client.ApiException as e] clause. *)
Definition is_conflict (e : exn) : bool :=
  match e with
  | ApiException status _ => bool_decide (status = 409)
  | _ => false
  end.

(** [except Exception] *)
Definition is_Exception (e : exn) : bool := true.

Inductive result (A : Type) : Type :=
| Ok (a : A)
| Raise (e : exn).
Arguments Ok {A} a.
Arguments Raise {A} e.

Definition is_Ok {A} (r : result A) : bool :=
  match r with Ok _ => true | Raise _ => false end.

(** ** Age of a resource *)

Module Age.

(** A [datetime] is a count of microseconds since the epoch; a [timedelta]
    is kept the way Python normalises it: [0 <= seconds < 86400] and
    [0 <= microseconds < 10^6], the sign carried by [days]. *)
Record timedelta : Type := Timedelta {
  days : Z;
  seconds : Z;
  microseconds : Z
}.

Definition us_per_second : Z := 1000000.
Definition us_per_day : Z := 86400 * us_per_second.

(** [now - creation_time] *)
Definition sub (now creation_time : Z) : timedelta :=
  let d := now - creation_time in
  {| days := d / us_per_day;
     seconds := (d mod us_per_day) / us_per_second;
     microseconds := d mod us_per_second |}.

(** [calculate_age], with the reading of the clock passed in. *)
Definition calculate_age (now creation_time : Z) : string :=
  let age := sub now creation_time in
  if 0 <? days age then pretty (days age) +:+ "d"
  else if 3600 <=? seconds age then pretty (seconds age / 3600) +:+ "h"
  else if 60 <=? seconds age then pretty (seconds age / 60) +:+ "m"
  else pretty (seconds age) +:+ "s".

(** The bucketing in the words of the specification: the age is split into
    whole days, hours, minutes and seconds, and the first unit that is not
    zero is printed, in that order; an age of less than a second is
    ["0s"]. *)
Definition whole_seconds (age_us : Z) : Z := age_us / us_per_second.
Definition unit_days (age_us : Z) : Z := whole_seconds age_us / 86400.
Definition unit_hours (age_us : Z) : Z := (whole_seconds age_us mod 86400) / 3600.
Definition unit_minutes (age_us : Z) : Z := (whole_seconds age_us mod 3600) / 60.
Definition unit_seconds (age_us : Z) : Z := whole_seconds age_us mod 60.

Definition first_nonzero_unit (age_us : Z) : string :=
  if negb (unit_days age_us =? 0) then pretty (unit_days age_us) +:+ "d"
  else if negb (unit_hours age_us =? 0) then pretty (unit_hours age_us) +:+ "h"
  else if negb (unit_minutes age_us =? 0) then pretty (unit_minutes age_us) +:+ "m"
  else pretty (unit_seconds age_us) +:+ "s".

End Age.

(** ** Objects of the client library *)

(** Values held in the attributes of the instance. *)
Inductive pyval : Type :=
| VNone
| VStr (s : string)
| VCoreV1Api    (* an instance of [client.CoreV1Api] *)
| VAppsV1Api.   (* an instance of [client.AppsV1Api] *)

(** [f"{v}"]; the text of an API object (its default [repr], which holds an
    address) is abbreviated. *)
Definition pyval_str (v : pyval) : string :=
  match v with
  | VNone => "None"
  | VStr s => s
  | VCoreV1Api => "<CoreV1Api object>"
  | VAppsV1Api => "<AppsV1Api object>"
  end.

(** [type(v).__name__] *)
Definition pyval_type_name (v : pyval) : string :=
  match v with
  | VNone => "NoneType"
  | VStr _ => "str"
  | VCoreV1Api => "CoreV1Api"
  | VAppsV1Api => "AppsV1Api"
  end.

(** A document produced by [yaml.safe_load_all]: [None] for an empty
    document, booleans, integers, text, lists and [dict]s.  A [dict] is kept
    as the list of its items, looked up by key; the program only looks up
    text keys, so items under other keys are left out.  The further scalars
    of YAML (floats, dates, [!!binary] byte strings) are not represented. *)
#[local] Set Warnings "-register-all".
Inductive yaml : Type :=
| YNull
| YBool (b : bool)
| YInt (n : Z)
| YStr (s : string)
| YSeq (items : list yaml)
| YMap (items : list (string * yaml)).
#[local] Set Warnings "register-all".

Module Yaml.

Fixpoint assoc (key : string) (items : list (string * yaml)) : option yaml :=
  match items with
  | [] => None
  | (k, v) :: rest => if decide (k = key) then Some v else assoc key rest
  end.

(** [type(v).__name__] *)
Definition type_name (v : yaml) : string :=
  match v with
  | YNull => "NoneType"
  | YBool _ => "bool"
  | YInt _ => "int"
  | YStr _ => "str"
  | YSeq _ => "list"
  | YMap _ => "dict"
  end.

(** [v[key]] for a [str] key; the messages are those of CPython 3.11. *)
Definition subscript (v : yaml) (key : string) : result yaml :=
  match v with
  | YMap items =>
      match assoc key items with
      | Some x => Ok x
      | None => Raise (KeyError ("'" +:+ key +:+ "'"))
      end
  | YStr _ => Raise (TypeError "string indices must be integers, not 'str'")
  | YSeq _ => Raise (TypeError "list indices must be integers or slices, not str")
  | _ => Raise (TypeError ("'" +:+ type_name v +:+ "' object is not subscriptable"))
  end.

(** [doc.get("kind", "").lower()] *)
Definition kind_lower (doc : yaml) : result string :=
  match doc with
  | YMap items =>
      match default (YStr "") (assoc "kind" items) with
      | YStr s => Ok (PyStr.lower s)
      | v => Raise (AttributeError
                      ("'" +:+ type_name v +:+ "' object has no attribute 'lower'"))
      end
  | _ => Raise (AttributeError
                  ("'" +:+ type_name doc +:+ "' object has no attribute 'get'"))
  end.

(** [doc["metadata"]["name"]] *)
Definition metadata_name (doc : yaml) : result yaml :=
  match subscript doc "metadata" with
  | Ok metadata => subscript metadata "name"
  | Raise e => Raise e
  end.

End Yaml.

(** Objects as the API server returns them in a listing.  An attribute the
    program dereferences without a guard, and that the server always sets on
    a stored object, is a plain field; an attribute that may be [None] is an
    option. *)
Module Read.

Record KubeContext : Type := { context_name : string }.

Record APIResourceList : Type := { resources : list string }.

Record VersionInfo : Type := { major : string; minor : string; platform : string }.

Record ObjectMeta : Type := { name : string; creation_timestamp : Z }.

Record ServiceSpec : Type := { cluster_ip : option string }.
Record Service : Type := { service_metadata : ObjectMeta; service_spec : ServiceSpec }.

Record NodeSystemInfo : Type := {
  kubelet_version : string;
  os_image : string;
  container_runtime_version : string
}.
Record NodeAddress : Type := { address_type : string; address : string }.
Record NodeStatus : Type := {
  node_phase : option string;
  node_info : NodeSystemInfo;
  addresses : list NodeAddress
}.
Record Node : Type := { node_metadata : ObjectMeta; node_status : NodeStatus }.

Record NamespaceStatus : Type := { namespace_phase : option string }.
Record Namespace : Type := {
  namespace_metadata : ObjectMeta;
  namespace_status : option NamespaceStatus
}.

Record PodStatus : Type := { pod_phase : option string; pod_ip : option string }.
Record PodSpec : Type := { node_name : option string }.
Record Pod : Type := { pod_metadata : ObjectMeta; pod_status : PodStatus; pod_spec : PodSpec }.

End Read.

(** The typed specs that [create] builds in memory. *)
Module Build.

Record V1ObjectMeta : Type := {
  name : option string;
  labels : option (gmap string string)
}.
Record V1LabelSelector : Type := { match_labels : gmap string string }.
Record V1Container : Type := { container_name : string; image : option string }.
Record V1PodSpec : Type := { containers : list V1Container }.
Record V1PodTemplateSpec : Type := {
  template_metadata : V1ObjectMeta;
  template_spec : V1PodSpec
}.
Record V1DeploymentSpec : Type := {
  replicas : option Z;
  selector : V1LabelSelector;
  template : V1PodTemplateSpec
}.
Record V1Deployment : Type := {
  deployment_metadata : V1ObjectMeta;
  deployment_spec : V1DeploymentSpec
}.
Record V1ServicePort : Type := { port : Z }.
Record V1ServiceSpec : Type := {
  service_selector : gmap string string;
  ports : list V1ServicePort
}.
Record V1Service : Type := {
  service_metadata : V1ObjectMeta;
  service_spec : V1ServiceSpec
}.

(** The body of the [deployment] branch of [create]. *)
Definition deployment (name : string) (image : option string) (replicas : option Z)
  : V1Deployment :=
  {| deployment_metadata := {| name := Some name; labels := None |};
     deployment_spec :=
       {| replicas := replicas;
          selector := {| match_labels := {[ "app" := name ]} |};
          template :=
            {| template_metadata := {| name := None; labels := Some {[ "app" := name ]} |};
               template_spec :=
                 {| containers := [ {| container_name := name; image := image |} ] |} |} |} |}.

(** The body of the [service] branch of [create]. *)
Definition service (name : string) : V1Service :=
  {| service_metadata := {| name := Some name; labels := None |};
     service_spec :=
       {| service_selector := {[ "app" := name ]};
          ports := [ {| port := 80 |} ] |} |}.

End Build.

(** ** External calls *)

Module Client.

Inductive kind : Type := Deployment | Service | Pod.

Inductive body : Type :=
| BodyDoc (doc : yaml)
| BodyDeployment (d : Build.V1Deployment)
| BodyService (s : Build.V1Service).

(** The calls that leave the program: two functions of
    [kubernetes.config] and the operations of the API objects. *)
Inductive call : Type :=
| list_kube_config_contexts
| load_kube_config (context : option string)
| get_api_resources
| list_namespaced_service (namespace : pyval)
| get_code
| list_node
| list_namespace
| list_namespaced_pod (namespace : pyval)
| create_namespaced (k : kind) (namespace : pyval) (b : body)
| patch_namespaced (k : kind) (name : yaml) (namespace : pyval) (b : body).

(** What a call returns when it does not raise.  The object returned by a
    create or patch call is never looked at. *)
Definition returns (c : call) : Type :=
  match c with
  | list_kube_config_contexts => (list Read.KubeContext * Read.KubeContext)%type
  | load_kube_config _ => unit
  | get_api_resources => Read.APIResourceList
  | list_namespaced_service _ => list Read.Service
  | get_code => Read.VersionInfo
  | list_node => list Read.Node
  | list_namespace => list Read.Namespace
  | list_namespaced_pod _ => list Read.Pod
  | create_namespaced _ _ _ => unit
  | patch_namespaced _ _ _ _ => unit
  end.

(** The operations an API object offers: [CoreV1Api] has no deployment
    operation, [AppsV1Api] has only those. *)
Definition offers (api : pyval) (c : call) : bool :=
  match api, c with
  | VCoreV1Api, (get_api_resources | list_namespaced_service _ | list_node
                | list_namespace | list_namespaced_pod _) => true
  | VCoreV1Api, (create_namespaced (Service | Pod) _ _
                | patch_namespaced (Service | Pod) _ _ _) => true
  | VAppsV1Api, (create_namespaced Deployment _ _
                | patch_namespaced Deployment _ _ _) => true
  | _, _ => false
  end.

Definition kind_name (k : kind) : string :=
  match k with Deployment => "deployment" | Service => "service" | Pod => "pod" end.

Definition method_name (c : call) : string :=
  match c with
  | list_kube_config_contexts => "list_kube_config_contexts"
  | load_kube_config _ => "load_kube_config"
  | get_api_resources => "get_api_resources"
  | list_namespaced_service _ => "list_namespaced_service"
  | get_code => "get_code"
  | list_node => "list_node"
  | list_namespace => "list_namespace"
  | list_namespaced_pod _ => "list_namespaced_pod"
  | create_namespaced k _ _ => "create_namespaced_" +:+ kind_name k
  | patch_namespaced k _ _ _ => "patch_namespaced_" +:+ kind_name k
  end.

(** The namespace a call targets, when it has one. *)
Definition target (c : call) : option pyval :=
  match c with
  | list_namespaced_service ns | list_namespaced_pod ns
  | create_namespaced _ ns _ | patch_namespaced _ _ ns _ => Some ns
  | _ => None
  end.

(** The kind a create or patch call writes. *)
Definition writes (c : call) : option kind :=
  match c with
  | create_namespaced k _ _ | patch_namespaced k _ _ _ => Some k
  | _ => None
  end.

End Client.

(** An entry of the log: the call made, and whether it returned. *)
Record event : Type := Ev { ev_call : Client.call; ev_ok : bool }.

(** The collaborators.  [answer] is the reply of the cluster (or of the
    kubeconfig) to a call, given the calls made so far; [read_yaml] is
    [open] followed by [yaml.safe_load_all], a lazy stream of documents that
    may end in a parse error; [utcnow] is the n-th reading of the clock;
    [host] is the endpoint of the loaded configuration; [py_repr] is the
    interpreter's text for a list or a [dict]. *)
Record world : Type := World {
  answer : list event → ∀ c : Client.call, result (Client.returns c);
  read_yaml : string → result (list yaml * option exn);
  utcnow : nat → Z;
  host : string;
  py_repr : yaml → string
}.

(** ** The monad of methods *)

Record state : Type := State {
  self : gmap string pyval;
  log : list event;
  stdout : list (option string);   (* [Some line], or [None] for the help text *)
  clock : nat
}.

Definition M (A : Type) : Type := state → result A * state.

Definition ret {A} (a : A) : M A := λ st, (Ok a, st).

Definition bind {A B} (m : M A) (f : A → M B) : M B := λ st,
  match m st with
  | (Ok a, st') => f a st'
  | (Raise e, st') => (Raise e, st')
  end.

Declare Scope py_scope.
Delimit Scope py_scope with py.
Bind Scope py_scope with M.
Notation "x ← y ; z" := (bind y (λ x : _, z))
  (at level 20, y at level 100, z at level 200, only parsing) : py_scope.
Notation "' x ← y ; z" := (bind y (λ x : _, z))
  (at level 20, x pattern, y at level 100, z at level 200, only parsing) : py_scope.
Notation "x ;; z" := (bind x (λ _, z))
  (at level 100, z at level 200, only parsing, right associativity) : py_scope.
Open Scope py_scope.

Definition raise {A} (e : exn) : M A := λ st, (Raise e, st).

Definition of_result {A} (r : result A) : M A := λ st, (r, st).

(** [try: m  except <classes> as e: handler e] *)
Definition try_except {A} (m : M A) (classes : exn → bool) (handler : exn → M A) : M A :=
  λ st,
    match m st with
    | (Raise e, st') => if classes e then handler e st' else (Raise e, st')
    | r => r
    end.

Definition print (line : string) : M unit := λ st,
  (Ok tt, {| self := self st; log := log st;
             stdout := stdout st ++ [Some line]; clock := clock st |}).

Definition print_help : M unit := λ st,
  (Ok tt, {| self := self st; log := log st;
             stdout := stdout st ++ [None]; clock := clock st |}).

(** [self.<attr>] *)
Definition getattr (attr : string) : M pyval := λ st,
  match self st !! attr with
  | Some v => (Ok v, st)
  | None => (Raise (AttributeError
                      ("'DescribeK8s' object has no attribute '" +:+ attr +:+ "'")), st)
  end.

(** [self.<attr> = v] *)
Definition setattr (attr : string) (v : pyval) : M unit := λ st,
  (Ok tt, {| self := <[attr := v]> (self st); log := log st;
             stdout := stdout st; clock := clock st |}).

Fixpoint for_each {A} (l : list A) (body : A → M unit) : M unit :=
  match l with
  | [] => ret tt
  | x :: rest => body x ;; for_each rest body
  end.

Section Methods.

Variable w : world.

(** An external call: the world answers, the log records it. *)
Definition extern (c : Client.call) : M (Client.returns c) := λ st,
  let r := answer w (log st) c in
  (r, {| self := self st; log := log st ++ [Ev c (is_Ok r)];
         stdout := stdout st; clock := clock st |}).

(** [api.<method>], the lookup of a bound method. *)
Definition getmethod (api : pyval) (c : Client.call) : M unit :=
  if Client.offers api c then ret tt
  else raise (AttributeError ("'" +:+ pyval_type_name api +:+ "' object has no attribute '"
                            +:+ Client.method_name c +:+ "'")).

(** [api.<method>(...)] *)
Definition invoke (api : pyval) (c : Client.call) : M (Client.returns c) :=
  getmethod api c ;; extern c.

(** [datetime.now(timezone.utc)] *)
Definition datetime_now : M Z := λ st,
  (Ok (utcnow w (clock st)),
   {| self := self st; log := log st; stdout := stdout st; clock := S (clock st) |}).

(** [self.v1.api_client.configuration.host] *)
Definition configuration_host : M string :=
  v1 ← getattr "v1";
  match v1 with
  | VCoreV1Api | VAppsV1Api => ret (host w)
  | _ => raise (AttributeError ("'" +:+ pyval_type_name v1
                              +:+ "' object has no attribute 'api_client'"))
  end.

End Methods.

(** ** The class [DescribeK8s] *)

Module DescribeK8s.
Section Class.

Variable w : world.

(** [f"{v}"] for a value of a document. *)
Definition yaml_str (v : yaml) : string :=
  match v with
  | YNull => "None"
  | YBool true => "True"
  | YBool false => "False"
  | YInt n => pretty n
  | YStr s => s
  | YSeq _ | YMap _ => py_repr w v
  end.

Definition __init__ (namespace : string) : M unit :=
  extern w (Client.load_kube_config None) ;;
  setattr "config" VNone ;;
  setattr "namespace" (VStr namespace) ;;
  setattr "v1" VCoreV1Api.

Definition set_namespace (namespace : string) : M unit :=
  setattr "namespace" (VStr namespace).

Definition get_api_resources : M (option Read.APIResourceList) :=
  try_except
    (v1 ← getattr "v1";
     r ← invoke w v1 Client.get_api_resources;
     ret (Some r))
    is_ApiException
    (λ e, print ("Error getting API resources: " +:+ exn_str e) ;; ret None).

Definition get_api_server : M string :=
  apiserver ← configuration_host w;
  ret ("Kubernetes control plane is running at " +:+ apiserver).

Definition get_kube_dns_info : M (option (list Read.Service)) :=
  try_except
    (v1 ← getattr "v1";
     getmethod v1 (Client.list_namespaced_service VNone) ;;
     namespace ← getattr "namespace";
     r ← (extern w (Client.list_namespaced_service namespace) : M (list Read.Service));
     ret (Some r))
    is_ApiException
    (λ e, print ("Error getting KubeDNS info: " +:+ exn_str e) ;; ret None).

(** The loop of [get_kube_dns_url]: the cluster IP of the first service
    named [kube-dns]. *)
Fixpoint first_kube_dns (items : list Read.Service) : option string :=
  match items with
  | [] => None
  | service :: rest =>
      if decide (Read.name (Read.service_metadata service) = "kube-dns")
      then Read.cluster_ip (Read.service_spec service)
      else first_kube_dns rest
  end.

Definition get_kube_dns_url : M (option string) :=
  kube_dns ← get_kube_dns_info;
  match kube_dns with
  | Some items => ret (first_kube_dns items)
  | None => ret None
  end.

Definition print_api_versions : M unit :=
  try_except
    (api_versions ← extern w Client.get_code;
     print "Kubernetes API Versions:" ;;
     print ("Major: " +:+ Read.major api_versions) ;;
     print ("Minor: " +:+ Read.minor api_versions) ;;
     print ("Platform: " +:+ Read.platform api_versions))
    is_ApiException
    (λ e, print ("Error getting API versions: " +:+ exn_str e)).

Definition print_cluster_info : M unit :=
  api_resources ← get_api_resources;
  match api_resources with
  | Some r => print ("API Resources: " +:+ pretty (length (Read.resources r)))
  | None => ret tt
  end ;;
  host ← configuration_host w;
  print ("KubeDNS is running at http://" +:+ host
         +:+ "/api/v1/namespaces/kube-system/services/kube-dns:dns/proxy") ;;
  print ("Kubernetes control plane is running at " +:+ host).

Definition get_nodes : M (option (list Read.Node)) :=
  try_except
    (v1 ← getattr "v1";
     nodes ← invoke w v1 Client.list_node;
     ret (Some nodes))
    is_ApiException
    (λ e, print ("Error getting nodes: " +:+ exn_str e) ;; ret None).

Definition get_all_namespaces : M (option (list Read.Namespace)) :=
  try_except
    (v1 ← getattr "v1";
     api_response ← invoke w v1 Client.list_namespace;
     ret (Some api_response))
    is_ApiException
    (λ e, print ("Exception when listing namespaces: " +:+ exn_str e) ;; ret None).

(** [namespace.status.phase if namespace.status else "Unknown"], as the
    f-string renders it. *)
Definition namespace_status_text (namespace : Read.Namespace) : string :=
  match Read.namespace_status namespace with
  | Some status => PyStr.fmt (Read.namespace_phase status)
  | None => "Unknown"
  end.

Definition print_namespace (namespace : Read.Namespace) : M unit :=
  let name := Read.name (Read.namespace_metadata namespace) in
  let status := namespace_status_text namespace in
  now ← datetime_now w;
  let age := Age.calculate_age now
               (Read.creation_timestamp (Read.namespace_metadata namespace)) in
  print (name +:+ PyStr.tab +:+ status +:+ PyStr.tab +:+ age).

Definition print_namespaces_info : M unit :=
  namespaces ← get_all_namespaces;
  print ("NAMESPACE" +:+ PyStr.tab +:+ "STATUS" +:+ PyStr.tab +:+ "AGE") ;;
  match namespaces with
  | Some ((_ :: _) as items) => for_each items print_namespace
  | _ => ret tt
  end ;;
  print "".

Definition print_pod (pod : Read.Pod) : M unit :=
  print ("Name: " +:+ Read.name (Read.pod_metadata pod)) ;;
  print ("  Status: " +:+ PyStr.fmt (Read.pod_phase (Read.pod_status pod))) ;;
  print ("  IP: " +:+ PyStr.fmt (Read.pod_ip (Read.pod_status pod))) ;;
  print ("  Node: " +:+ PyStr.fmt (Read.node_name (Read.pod_spec pod))) ;;
  print "---".

Definition list_pods : M unit :=
  try_except
    (let api_instance := VCoreV1Api in
     getmethod api_instance (Client.list_namespaced_pod VNone) ;;
     namespace ← getattr "namespace";
     pod_list ← (extern w (Client.list_namespaced_pod namespace) : M (list Read.Pod));
     namespace ← getattr "namespace";
     print ("Pods in namespace '" +:+ pyval_str namespace +:+ "':") ;;
     for_each pod_list print_pod)
    is_ApiException
    (λ e, print ("Exception when calling CoreV1Api->list_namespaced_pod: " +:+ exn_str e)).

Definition print_node (node : Read.Node) : M unit :=
  let status := Read.node_status node in
  print ("  Name: " +:+ Read.name (Read.node_metadata node)) ;;
  print ("    Status: " +:+ PyStr.fmt (Read.node_phase status)) ;;
  print ("    Kubernetes Version: " +:+ Read.kubelet_version (Read.node_info status)) ;;
  print ("    OS Image: " +:+ Read.os_image (Read.node_info status)) ;;
  print ("    Container Runtime: "
         +:+ Read.container_runtime_version (Read.node_info status)) ;;
  print "    Addresses:" ;;
  for_each (Read.addresses status)
    (λ address, print ("      " +:+ Read.address_type address +:+ ": "
                       +:+ Read.address address)) ;;
  print "".

Definition print_nodes_info : M unit :=
  nodes ← get_nodes;
  match nodes with
  | Some ((_ :: _) as items) =>
      print "Cluster Nodes:" ;;
      for_each items print_node
  | _ => print "No nodes found or error occurred while fetching nodes."
  end.

Definition switch_context (context_name : string) : M bool :=
  try_except
    ('(contexts, active_context) ← extern w Client.list_kube_config_contexts;
     if decide (context_name ∈ Read.context_name <$> contexts) then
       extern w (Client.load_kube_config (Some context_name)) ;;
       print ("Switched to context '" +:+ context_name +:+ "'") ;;
       ret true
     else
       print ("Context '" +:+ context_name +:+ "' not found.") ;;
       ret false)
    is_Exception
    (λ e, print ("Error switching context: " +:+ exn_str e) ;; ret false).

(** The part of the loop body of [apply] after the dispatch on [kind]:
    [api_attr] is the attribute of [self] holding the API object, [k] the
    kind whose create and patch operations are bound. *)
Definition create_or_update (api_attr : string) (k : Client.kind)
    (kind : string) (name doc : yaml) : M unit :=
  api_instance ← getattr api_attr;
  getmethod api_instance (Client.create_namespaced k VNone (Client.BodyDoc doc)) ;;
  getmethod api_instance (Client.patch_namespaced k name VNone (Client.BodyDoc doc)) ;;
  try_except
    (namespace ← getattr "namespace";
     extern w (Client.create_namespaced k namespace (Client.BodyDoc doc)) ;;
     print (PyStr.capitalize kind +:+ " '" +:+ yaml_str name +:+ "' created."))
    is_ApiException
    (λ e,
       if is_conflict e then
         namespace ← getattr "namespace";
         extern w (Client.patch_namespaced k name namespace (Client.BodyDoc doc)) ;;
         print (PyStr.capitalize kind +:+ " '" +:+ yaml_str name +:+ "' updated.")
       else
         print ("Error applying " +:+ kind +:+ " '" +:+ yaml_str name +:+ "': "
                +:+ exn_str e)).

(** The body of the [for doc in docs] loop of [apply]. *)
Definition apply_document (doc : yaml) : M unit :=
  kind ← of_result (Yaml.kind_lower doc);
  name ← of_result (Yaml.metadata_name doc);
  if decide (kind = "deployment") then
    create_or_update "apps_v1" Client.Deployment kind name doc
  else if decide (kind = "service") then
    create_or_update "v1" Client.Service kind name doc
  else if decide (kind = "pod") then
    create_or_update "v1" Client.Pod kind name doc
  else
    print ("Unsupported resource kind: " +:+ kind).

(** The [with] block of [apply] over the stream of documents of the file:
    the loop, then the parse error that ends the stream, if any. *)
Definition apply_stream (docs : list yaml * option exn) : M unit :=
  for_each docs.1 apply_document ;;
  match docs.2 with
  | Some e => raise e
  | None => ret tt
  end.

Definition apply (filename : string) : M unit :=
  try_except
    (docs ← of_result (read_yaml w filename);
     apply_stream docs)
    is_Exception
    (λ e, print ("Error applying configuration: " +:+ exn_str e)).

Definition create (resource_type name : string) (image : option string)
    (replicas : option Z) : M unit :=
  try_except
    (if decide (PyStr.lower resource_type = "deployment") then
       let body := Client.BodyDeployment (Build.deployment name image replicas) in
       apps_v1 ← getattr "apps_v1";
       getmethod apps_v1 (Client.create_namespaced Client.Deployment VNone body) ;;
       namespace ← getattr "namespace";
       extern w (Client.create_namespaced Client.Deployment namespace body) ;;
       print ("Deployment '" +:+ name +:+ "' created.")
     else if decide (PyStr.lower resource_type = "service") then
       let body := Client.BodyService (Build.service name) in
       v1 ← getattr "v1";
       getmethod v1 (Client.create_namespaced Client.Service VNone body) ;;
       namespace ← getattr "namespace";
       extern w (Client.create_namespaced Client.Service namespace body) ;;
       print ("Service '" +:+ name +:+ "' created.")
     else
       print ("Unsupported resource type: " +:+ resource_type))
    is_ApiException
    (λ e, print ("Error creating " +:+ resource_type +:+ ": " +:+ exn_str e)).

End Class.
End DescribeK8s.

(** ** The command line *)

(** The namespace object of [argparse]: an option with a value is [None]
    when it is not given, a [store_true] flag is a boolean; [--create] takes
    three values. *)
Record Args : Type := {
  namespace : option string;
  cluster_info : bool;
  api_versions : bool;
  nodes : bool;
  list_namespaces : bool;
  switch_context : option string;
  apply : option string;
  create : option (string * string * string);
  replicas : option Z;
  list_pods : bool
}.

(** [if args.<option>:] for an option holding a [str] or [None]. *)
Definition truthy_arg (o : option string) : bool :=
  match o with
  | Some s => PyStr.truthy s
  | None => false
  end.

Section Main.

Variable w : world.

(** The [if]/[elif] chain of [main]. *)
Definition dispatch (args : Args) : M unit :=
  if cluster_info args then DescribeK8s.print_cluster_info w
  else if api_versions args then DescribeK8s.print_api_versions w
  else if nodes args then DescribeK8s.print_nodes_info w
  else if list_namespaces args then DescribeK8s.print_namespaces_info w
  else if truthy_arg (switch_context args) then
    DescribeK8s.switch_context w (default "" (switch_context args)) ;; ret tt
  else if truthy_arg (apply args) then
    DescribeK8s.apply w (default "" (apply args))
  else
    match create args with
    | Some (resource_type, name, image) =>
        DescribeK8s.create w resource_type name (Some image) (replicas args)
    | None => ret tt
    end.

Definition main (args : Args) : M unit :=
  DescribeK8s.__init__ w "default" ;;
  (if truthy_arg (namespace args)
   then DescribeK8s.set_namespace (default "" (namespace args))
   else ret tt) ;;
  dispatch args ;;
  if list_pods args then DescribeK8s.list_pods w else print_help.

End Main.

(** The state of a fresh process. *)
Definition start : state := {| self := ∅; log := []; stdout := []; clock := 0 |}.

(** * Vocabulary of the properties *)

(** Two ways a run changes the state: an entry added to the log, and lines
    written (with readings of the clock). *)
Definition logged (e : event) (st : state) : state :=
  {| self := self st; log := log st ++ [e]; stdout := stdout st; clock := clock st |}.

Definition emit (lines : list (option string)) (ticks : nat) (st : state) : state :=
  {| self := self st; log := log st; stdout := stdout st ++ lines;
     clock := ticks + clock st |}.

(** A run of [m] from a state whose [self] is [s] leaves [self] as it is,
    adds to the log only calls that satisfy [P], and raises only exceptions
    of a class in [C]. *)
Definition behaves (P : Client.call → Prop) (s : gmap string pyval) (C : exn → bool)
    {A} (m : M A) : Prop :=
  ∀ st, self st = s →
    self (m st).2 = s
    ∧ (∃ evs, log (m st).2 = log st ++ evs ∧ Forall (λ e, P (ev_call e)) evs)
    ∧ (∀ e, (m st).1 = Raise e → C e = true).

(** ** The operations of the class *)

(** The methods of [DescribeK8s] other than the constructor and
    [set_namespace], with their arguments. *)
Module Op.

Inductive t : Type :=
| get_api_resources
| get_api_server
| get_kube_dns_info
| get_kube_dns_url
| print_api_versions
| print_cluster_info
| get_nodes
| get_all_namespaces
| print_namespaces_info
| list_pods
| print_nodes_info
| switch_context (context_name : string)
| apply (filename : string)
| create (resource_type name : string) (image : option string) (replicas : option Z).

(** A call of the method, its value dropped. *)
Definition run (w : world) (o : t) : M unit :=
  match o with
  | get_api_resources => DescribeK8s.get_api_resources w ;; ret tt
  | get_api_server => DescribeK8s.get_api_server w ;; ret tt
  | get_kube_dns_info => DescribeK8s.get_kube_dns_info w ;; ret tt
  | get_kube_dns_url => DescribeK8s.get_kube_dns_url w ;; ret tt
  | print_api_versions => DescribeK8s.print_api_versions w
  | print_cluster_info => DescribeK8s.print_cluster_info w
  | get_nodes => DescribeK8s.get_nodes w ;; ret tt
  | get_all_namespaces => DescribeK8s.get_all_namespaces w ;; ret tt
  | print_namespaces_info => DescribeK8s.print_namespaces_info w
  | list_pods => DescribeK8s.list_pods w
  | print_nodes_info => DescribeK8s.print_nodes_info w
  | switch_context context_name => DescribeK8s.switch_context w context_name ;; ret tt
  | apply filename => DescribeK8s.apply w filename
  | create resource_type name image replicas =>
      DescribeK8s.create w resource_type name image replicas
  end.


End Op.

(** The calls a method can make on an instance whose attributes are [s]: a
    namespaced call targets the value of [self.namespace], and a deployment
    is written only through an [AppsV1Api] object held in [self.apps_v1]. *)
Definition issuable (s : gmap string pyval) (c : Client.call) : Prop :=
  (∀ ns, Client.target c = Some ns → s !! "namespace" = Some ns)
  ∧ (Client.writes c = Some Client.Deployment → s !! "apps_v1" = Some VAppsV1Api).


(** ** Apply, in the words of the specification *)

Module ApplySpec.
Section Spec.

Variable w : world.






End Spec.
End ApplySpec.

(** ** Switching the context *)

(** The context of the configuration loaded last: [None] before any load,
    [Some None] for the current context of the kubeconfig file. *)
Definition loaded_context (h : list event) : option (option string) :=
  fold_left
    (λ acc e,
       match ev_call e with
       | Client.load_kube_config context => if ev_ok e then Some context else acc
       | _ => acc
       end)
    h None.

(** ** Lines of the namespace listing *)

(** The line of a namespace, the clock being read for the [tick]-th time. *)
Definition namespace_line (w : world) (tick : nat) (namespace : Read.Namespace) : string :=
  Read.name (Read.namespace_metadata namespace) +:+ PyStr.tab
  +:+ DescribeK8s.namespace_status_text namespace +:+ PyStr.tab
  +:+ Age.calculate_age (utcnow w tick)
        (Read.creation_timestamp (Read.namespace_metadata namespace)).

Fixpoint namespace_lines (w : world) (tick : nat) (items : list Read.Namespace)
  : list string :=
  match items with
  | [] => []
  | namespace :: rest => namespace_line w tick namespace :: namespace_lines w (S tick) rest
  end.

(** ** Documents and attributes *)

(** The document is a mapping whose [metadata] is a mapping with a [name]. *)
Definition has_metadata_name (doc : yaml) : Prop :=
  ∃ items metadata name,
    doc = YMap items
    ∧ Yaml.assoc "metadata" items = Some (YMap metadata)
    ∧ Yaml.assoc "name" metadata = Some name.

(** The message of the [AttributeError] for the attribute [apps_v1]. *)
Definition no_apps_v1 : string := "'DescribeK8s' object has no attribute 'apps_v1'".

(** ** Command lines *)

(** [nautilus.py] *)
Definition no_args : Args :=
  {| namespace := None; cluster_info := false; api_versions := false; nodes := false;
     list_namespaces := false; switch_context := None; apply := None; create := None;
     replicas := None; list_pods := false |}.

(** [nautilus.py --nodes] *)
Definition nodes_only : Args :=
  {| namespace := None; cluster_info := false; api_versions := false; nodes := true;
     list_namespaces := false; switch_context := None; apply := None; create := None;
     replicas := None; list_pods := false |}.

(** The namespace a run of [main] works in: the value of [--namespace] when
    it is given and not empty, ["default"] otherwise. *)
Definition effective_namespace (args : Args) : string :=
  match namespace args with
  | Some ns => if PyStr.truthy ns then ns else "default"
  | None => "default"
  end.

(** [nautilus.py --namespace kube-system --list-pods] *)
Definition pods_of_kube_system : Args :=
  {| namespace := Some "kube-system"; cluster_info := false; api_versions := false;
     nodes := false; list_namespaces := false; switch_context := None; apply := None;
     create := None; replicas := None; list_pods := true |}.

(** [nautilus.py --namespace '' --list-pods] *)
Definition pods_of_empty_namespace : Args :=
  {| namespace := Some ""; cluster_info := false; api_versions := false;
     nodes := false; list_namespaces := false; switch_context := None; apply := None;
     create := None; replicas := None; list_pods := true |}.

(** ** Some worlds *)

Module Worlds.

(** A cluster that answers every call, with empty listings. *)
Definition calm_answer (h : list event) (c : Client.call) : result (Client.returns c) :=
  match c with
  | Client.list_kube_config_contexts =>
      Ok ([ {| Read.context_name := "minikube" |} ], {| Read.context_name := "minikube" |})
  | Client.load_kube_config _ => Ok tt
  | Client.get_api_resources => Ok {| Read.resources := [] |}
  | Client.list_namespaced_service _ => Ok []
  | Client.get_code =>
      Ok {| Read.major := "1"; Read.minor := "29"; Read.platform := "linux/amd64" |}
  | Client.list_node => Ok []
  | Client.list_namespace => Ok []
  | Client.list_namespaced_pod _ => Ok []
  | Client.create_namespaced _ _ _ => Ok tt
  | Client.patch_namespaced _ _ _ _ => Ok tt
  end.

Definition with_answer
    (a : list event → ∀ c : Client.call, result (Client.returns c))
    (files : string → result (list yaml * option exn)) : world :=
  {| answer := a;
     read_yaml := files;
     utcnow := λ _, 1700000000000000;
     host := "https://127.0.0.1:6443";
     py_repr := λ _, "" |}.

Definition no_file (filename : string) : result (list yaml * option exn) :=
  Raise (OtherException "FileNotFoundError" "[Errno 2] No such file or directory").

Definition calm : world := with_answer calm_answer no_file.


(** Two manifests. *)
Definition manifest (kind name : string) : yaml :=
  YMap [("apiVersion", YStr "v1"); ("kind", YStr kind);
        ("metadata", YMap [("name", YStr name)])].

Definition files (filename : string) : result (list yaml * option exn) :=
  if decide (filename = "services.yaml") then
    Ok ([manifest "Service" "web"; manifest "Service" "web"], None)
  else if decide (filename = "mixed.yaml") then
    Ok ([manifest "Service" "web"; manifest "Pod" "worker"], None)
  else if decide (filename = "gap.yaml") then
    Ok ([manifest "Service" "web"; YNull; manifest "Pod" "worker"], None)
  else if decide (filename = "deployment.yaml") then
    Ok ([manifest "Deployment" "web"], None)
  else no_file filename.




(** A kubeconfig that lists a context [staging] whose cluster entry is
    missing: loading it raises the [ConfigException] of the client. *)
Definition stale_context : world :=
  with_answer
    (λ h c,
       match c return result (Client.returns c) with
       | Client.list_kube_config_contexts =>
           Ok ([ {| Read.context_name := "minikube" |};
                 {| Read.context_name := "staging" |} ],
               {| Read.context_name := "minikube" |})
       | Client.load_kube_config (Some "staging") =>
           Raise (OtherException "ConfigException"
                    "Invalid kube-config file. Expected object with name staging in kube-config/clusters list")
       | c' => calm_answer h c'
       end)
    no_file.

(** A listing of three namespaces: one with a status that has no phase,
    one without a status, one active. *)
Definition namespaces : list Read.Namespace :=
  [ {| Read.namespace_metadata :=
         {| Read.name := "default"; Read.creation_timestamp := 1699827200000000 |};
       Read.namespace_status := Some {| Read.namespace_phase := None |} |};
    {| Read.namespace_metadata :=
         {| Read.name := "kube-system"; Read.creation_timestamp := 1699996300000000 |};
       Read.namespace_status := None |};
    {| Read.namespace_metadata :=
         {| Read.name := "dev"; Read.creation_timestamp := 1699999910000000 |};
       Read.namespace_status := Some {| Read.namespace_phase := Some "Active" |} |} ].

Definition three_namespaces : world :=
  with_answer
    (λ h c,
       match c return result (Client.returns c) with
       | Client.list_namespace => Ok namespaces
       | c' => calm_answer h c'
       end)
    no_file.

(** The calm cluster, with the manifests on disk. *)
Definition calm_with_files : world := with_answer calm_answer files.

(** A deployment document without [metadata], and the calm cluster with a
    file that holds it. *)
Definition bare_deployment : yaml :=
  YMap [("apiVersion", YStr "apps/v1"); ("kind", YStr "Deployment")].

Definition calm_with_bare_deployment : world :=
  with_answer calm_answer
    (λ filename,
       if decide (filename = "bare.yaml") then Ok ([bare_deployment], None)
       else no_file filename).

(** The API server refuses every request. *)
Definition forbidden : world :=
  with_answer
    (λ h c,
       match c with
       | Client.list_kube_config_contexts | Client.load_kube_config _ => calm_answer h c
       | _ => Raise (ApiException 403 "Forbidden")
       end)
    no_file.

End Worlds.

(** The attributes of an instance as the constructor leaves them. *)
Definition inspector (namespace : string) : gmap string pyval :=
  <["v1" := VCoreV1Api]> (<["namespace" := VStr namespace]> (<["config" := VNone]> ∅)).

Definition constructed (namespace : string) : state :=
  {| self := inspector namespace;
     log := [Ev (Client.load_kube_config None) true]; stdout := []; clock := 0 |}.

(** ** Lines of the pod and node listings *)

(** The five lines [list_pods] writes for a pod. *)
Definition pod_lines (pod : Read.Pod) : list string :=
  [ "Name: " +:+ Read.name (Read.pod_metadata pod);
    "  Status: " +:+ PyStr.fmt (Read.pod_phase (Read.pod_status pod));
    "  IP: " +:+ PyStr.fmt (Read.pod_ip (Read.pod_status pod));
    "  Node: " +:+ PyStr.fmt (Read.node_name (Read.pod_spec pod));
    "---" ].


(** The two endpoint lines of [print_cluster_info]. *)
Definition endpoint_lines (host : string) : list string :=
  [ "KubeDNS is running at http://" +:+ host
    +:+ "/api/v1/namespaces/kube-system/services/kube-dns:dns/proxy";
    "Kubernetes control plane is running at " +:+ host ].

(** A cluster with two services, two pods and one node. *)
Module Inventory.

Definition services : list Read.Service :=
  [ {| Read.service_metadata := {| Read.name := "metrics"; Read.creation_timestamp := 0 |};
       Read.service_spec := {| Read.cluster_ip := Some "10.96.0.20" |} |};
    {| Read.service_metadata := {| Read.name := "kube-dns"; Read.creation_timestamp := 0 |};
       Read.service_spec := {| Read.cluster_ip := Some "10.96.0.10" |} |} ].

Definition pods : list Read.Pod :=
  [ {| Read.pod_metadata := {| Read.name := "web-1"; Read.creation_timestamp := 0 |};
       Read.pod_status := {| Read.pod_phase := Some "Running"; Read.pod_ip := Some "10.1.0.4" |};
       Read.pod_spec := {| Read.node_name := Some "node-a" |} |};
    {| Read.pod_metadata := {| Read.name := "web-2"; Read.creation_timestamp := 0 |};
       Read.pod_status := {| Read.pod_phase := Some "Pending"; Read.pod_ip := None |};
       Read.pod_spec := {| Read.node_name := None |} |} ].

Definition nodes : list Read.Node :=
  [ {| Read.node_metadata := {| Read.name := "node-a"; Read.creation_timestamp := 0 |};
       Read.node_status :=
         {| Read.node_phase := None;
            Read.node_info := {| Read.kubelet_version := "v1.29.0";
                                 Read.os_image := "Ubuntu 22.04";
                                 Read.container_runtime_version := "containerd://1.7.2" |};
            Read.addresses := [ {| Read.address_type := "InternalIP";
                                   Read.address := "192.168.1.10" |};
                                {| Read.address_type := "Hostname";
                                   Read.address := "node-a" |} ] |} |} ].

Definition world : world :=
  Worlds.with_answer
    (λ h c,
       match c return result (Client.returns c) with
       | Client.list_namespaced_service _ => Ok services
       | Client.list_namespaced_pod _ => Ok pods
       | Client.list_node => Ok nodes
       | c' => Worlds.calm_answer h c'
       end)
    Worlds.files.

End Inventory.

(** A machine without a kubeconfig: the load of the configuration raises the
    [ConfigException] of the client. *)
Definition without_kubeconfig : world :=
  Worlds.with_answer
    (λ h c,
       match c return result (Client.returns c) with
       | Client.load_kube_config None =>
           Raise (OtherException "ConfigException"
                    "Invalid kube-config file. No configuration found.")
       | c' => Worlds.calm_answer h c'
       end)
    Worlds.no_file.

(** ** The calls of each operation *)

(** [apply] and [create] are the operations meant to change the cluster. *)
Definition changes_cluster (o : Op.t) : bool :=
  match o with
  | Op.apply _ | Op.create _ _ _ _ => true
  | _ => false
  end.

(** The calls an operation may make, on an instance whose attributes are
    [s]. *)
Definition may_call (w : world) (s : gmap string pyval) (o : Op.t) (c : Client.call) : Prop :=
  match o with
  | Op.get_api_server => False
  | Op.get_api_resources | Op.print_cluster_info => c = Client.get_api_resources
  | Op.get_kube_dns_info | Op.get_kube_dns_url =>
      ∃ ns, s !! "namespace" = Some ns ∧ c = Client.list_namespaced_service ns
  | Op.print_api_versions => c = Client.get_code
  | Op.get_nodes | Op.print_nodes_info => c = Client.list_node
  | Op.get_all_namespaces | Op.print_namespaces_info => c = Client.list_namespace
  | Op.list_pods => ∃ ns, s !! "namespace" = Some ns ∧ c = Client.list_namespaced_pod ns
  | Op.switch_context context_name =>
      c = Client.list_kube_config_contexts
      ∨ c = Client.load_kube_config (Some context_name)
  | Op.apply filename =>
      ∃ docs trailing doc k name ns,
        read_yaml w filename = Ok (docs, trailing) ∧ doc ∈ docs
        ∧ Yaml.kind_lower doc = Ok (Client.kind_name k)
        ∧ Yaml.metadata_name doc = Ok name
        ∧ s !! "namespace" = Some ns
        ∧ (c = Client.create_namespaced k ns (Client.BodyDoc doc)
           ∨ c = Client.patch_namespaced k name ns (Client.BodyDoc doc))
  | Op.create resource_type name image replicas =>
      ∃ ns,
        s !! "namespace" = Some ns
        ∧ ((PyStr.lower resource_type = "service"
            ∧ c = Client.create_namespaced Client.Service ns
                    (Client.BodyService (Build.service name)))
           ∨ (PyStr.lower resource_type = "deployment"
              ∧ c = Client.create_namespaced Client.Deployment ns
                      (Client.BodyDeployment (Build.deployment name image replicas))))
  end.

(** The number of calls an operation can make: two per document for
    [apply], two for [switch_context], none for [get_api_server], one for
    the others. *)
Definition call_budget (w : world) (o : Op.t) : nat :=
  match o with
  | Op.get_api_server => 0
  | Op.switch_context _ => 2
  | Op.apply filename =>
      match read_yaml w filename with
      | Ok (docs, _) => 2 * length docs
      | Raise _ => 0
      end
  | _ => 1
  end.

(** A computation that makes no call, and one that makes at most [n]. *)
Definition makes_no_call {A} (m : M A) : Prop := ∀ st, log (m st).2 = log st.

Definition makes_at_most (n : nat) {A} (m : M A) : Prop :=
  ∀ st, ∃ evs, log (m st).2 = log st ++ evs ∧ (length evs ≤ n)%nat.

(** A computation that writes only lines of text, never the help text. *)
Definition writes_text {A} (m : M A) : Prop :=
  ∀ st, ∃ lines : list string, stdout (m st).2 = stdout st ++ (Some <$> lines).

(** [nautilus.py --nodes --list-pods] *)
Definition nodes_and_pods : Args :=
  {| namespace := None; cluster_info := false; api_versions := false; nodes := true;
     list_namespaces := false; switch_context := None; apply := None; create := None;
     replicas := None; list_pods := true |}.

(** * Reasoning about runs *)

Lemma emit_emit l1 n1 l2 n2 st :
  emit l2 n2 (emit l1 n1 st) = emit (l1 ++ l2) (n2 + n1) st.
Proof. unfold emit; cbn. f_equal; [by rewrite app_assoc | lia]. Qed.

Lemma emit_nil st : emit [] 0 st = st.
Proof. destruct st; unfold emit; cbn. by rewrite app_nil_r. Qed.

Lemma bind_run {A B} (m : M A) (f : A → M B) st :
  bind m f st = match m st with
                | (Ok a, st') => f a st'
                | (Raise e, st') => (Raise e, st')
                end.
Proof. reflexivity. Qed.

Lemma for_each_cons {A} (x : A) rest body st :
  for_each (x :: rest) body st
  = match body x st with
    | (Ok _, st') => for_each rest body st'
    | (Raise e, st') => (Raise e, st')
    end.
Proof. reflexivity. Qed.

(** A loop stops at the first iteration that raises. *)
Lemma for_each_app {A} (l1 l2 : list A) body st :
  for_each (l1 ++ l2) body st
  = match for_each l1 body st with
    | (Ok _, st') => for_each l2 body st'
    | (Raise e, st') => (Raise e, st')
    end.
Proof.
  revert st; induction l1 as [|x l1 IH]; intros st; [reflexivity|].
  cbn [app]. rewrite !for_each_cons.
  destruct (body x st) as [[[]|e] st']; [apply IH | reflexivity].
Qed.

(** ** What a run may do *)

Section Behaves.

(** [W] bounds the failures of the world: every exception an external call
    raises is of a class in [W]. *)
Variable w : world.
Variable W : exn → bool.
Hypothesis answers_in_W : ∀ h c e, answer w h c = Raise e → W e = true.

(** [P] bounds the calls, [s] is the attribute dictionary of [self]. *)
Variable P : Client.call → Prop.
Variable s : gmap string pyval.

Local Abbreviation does := (behaves P s).

Lemma behaves_ret C {A} (a : A) : does C (ret a).
Proof.
  intros st Hs; cbn. split; [done|]. split; [|done].
  exists []. by rewrite app_nil_r.
Qed.

Lemma behaves_raise C {A} e : C e = true → does C (raise (A := A) e).
Proof.
  intros HC st Hs; cbn. split; [done|]. split; [|congruence].
  exists []. by rewrite app_nil_r.
Qed.

Lemma behaves_of_result C {A} (r : result A) :
  (∀ e, r = Raise e → C e = true) → does C (of_result r).
Proof.
  intros HC st Hs; cbn. split; [done|]. split; [|done].
  exists []. by rewrite app_nil_r.
Qed.

Lemma behaves_emit C lines n {A} (m : M A) (a : A) :
  (∀ st, m st = (Ok a, emit lines n st)) → does C m.
Proof.
  intros Hm st Hs. rewrite Hm; cbn. split; [done|]. split; [|done].
  exists []. by rewrite app_nil_r.
Qed.

Lemma behaves_print C line : does C (print line).
Proof. by apply (behaves_emit C [Some line] 0%nat _ tt). Qed.

Lemma behaves_print_help C : does C print_help.
Proof. by apply (behaves_emit C [None] 0%nat _ tt). Qed.

Lemma behaves_datetime_now C : does C (datetime_now w).
Proof.
  intros st Hs; cbn. split; [done|]. split; [|done].
  exists []. by rewrite app_nil_r.
Qed.

Lemma behaves_bind C {A B} (m : M A) (f : A → M B) :
  does C m → (∀ a, does C (f a)) → does C (bind m f).
Proof.
  intros Hm Hf st Hs. unfold bind.
  destruct (Hm st Hs) as (Hs1 & (e1 & Hl1 & H1) & Hr1).
  destruct (m st) as [[a|e] st']; cbn in *.
  - destruct (Hf a st' Hs1) as (Hs2 & (e2 & Hl2 & H2) & Hr2).
    split; [done|]. split; [|done].
    exists (e1 ++ e2). split; [by rewrite Hl2, Hl1, app_assoc | by apply Forall_app].
  - split; [done|]. split; [by exists e1|].
    intros e' [= <-]. by apply Hr1.
Qed.

(** [self.<attr>]: the continuation runs with the value found; a missing
    attribute raises [AttributeError], which must then be allowed. *)
Lemma behaves_getattr C {A} attr (f : pyval → M A) :
  match s !! attr with
  | Some v => does C (f v)
  | None => ∀ msg, C (AttributeError msg) = true
  end →
  does C (bind (getattr attr) f).
Proof.
  intros H st Hs. unfold bind, getattr. rewrite Hs.
  destruct (s !! attr) as [v|]; [by apply H|].
  cbn. split; [done|]. split; [|intros e [= <-]; apply H].
  exists []. by rewrite app_nil_r.
Qed.

Lemma behaves_getmethod C api c :
  (Client.offers api c = false → ∀ msg, C (AttributeError msg) = true) →
  does C (getmethod api c).
Proof.
  intros H. unfold getmethod. destruct (Client.offers api c).
  - apply behaves_ret.
  - apply behaves_raise. by apply H.
Qed.

Lemma behaves_extern C c :
  P c → (∀ e, W e = true → C e = true) → does C (extern w c).
Proof.
  intros HP HC st Hs; cbn. split; [done|]. split.
  - eexists [_]. split; [done|]. by constructor.
  - intros e He. eapply HC, answers_in_W, He.
Qed.

(** [try]/[except]: the body may raise classes [C']; those the clause
    names run the handler, the others must be allowed outside. *)
Lemma behaves_try_except C C' {A} (m : M A) classes handler :
  does C' m →
  (∀ e, C' e = true → classes e = true → does C (handler e)) →
  (∀ e, C' e = true → classes e = false → C e = true) →
  does C (try_except m classes handler).
Proof.
  intros Hm Hh HC st Hs. unfold try_except.
  destruct (Hm st Hs) as (Hs1 & (e1 & Hl1 & H1) & Hr1).
  destruct (m st) as [[a|e] st']; cbn in *.
  - split; [done|]. split; [by exists e1|done].
  - specialize (Hr1 e eq_refl). destruct (classes e) eqn:Hc.
    + destruct (Hh e Hr1 Hc st' Hs1) as (Hs2 & (e2 & Hl2 & H2) & Hr2).
      split; [done|]. split; [|done].
      exists (e1 ++ e2). split; [by rewrite Hl2, Hl1, app_assoc | by apply Forall_app].
    + split; [done|]. split; [by exists e1|].
      intros e' [= <-]. by apply HC.
Qed.

Lemma behaves_for_each C {A} (l : list A) body :
  (∀ x, does C (body x)) → does C (for_each l body).
Proof.
  intros Hbody. induction l as [|x l IH]; [apply behaves_ret|].
  apply behaves_bind; [apply Hbody | intros _; exact IH].
Qed.

Lemma behaves_getmethod_bind C {A} api c (k : M A) :
  (Client.offers api c = true → does C k) →
  (Client.offers api c = false → ∀ msg, C (AttributeError msg) = true) →
  does C (bind (getmethod api c) (λ _, k)).
Proof.
  intros Hk HC. unfold getmethod. destruct (Client.offers api c).
  - apply behaves_bind; [apply behaves_ret | intros _; by apply Hk].
  - intros st Hs; cbn. split; [done|]. split.
    + exists []. by rewrite app_nil_r.
    + intros e [= <-]. by apply HC.
Qed.

End Behaves.

Ltac behave_getattr :=
  apply behaves_getattr;
  lazymatch goal with
  | |- match ?s !! ?a with _ => _ end =>
      first [ match goal with H : s !! a = _ |- _ => rewrite H end
            | let H := fresh "Hattr" in destruct (s !! a) eqn:H ]
  end.

Ltac behave_leaf :=
  first [ apply behaves_ret | apply behaves_print | apply behaves_print_help
        | apply behaves_datetime_now ].

Ltac issuable_solve :=
  split; cbn;
  [ first [ by intros ns [= <-] | done ]
  | first [ done
          | intros _;
            match goal with
            | H : ?s !! "apps_v1" = Some ?p, H' : Client.offers ?p _ = true |- _ =>
                destruct p; cbn in H'; try discriminate; exact H
            end ] ].

(** In any world: [self] is left as it is and the calls are [issuable]. *)
Section AnyWorld.

Variable w : world.
Variable s : gmap string pyval.

Local Abbreviation any := (λ _ : exn, true).
Local Abbreviation ok := (behaves (issuable s) s any).

Lemma any_answer : ∀ h c e, answer w h c = Raise e → any e = true.
Proof. done. Qed.

Ltac go :=
  repeat (cbn beta zeta; first
    [ behave_leaf
    | by apply behaves_raise
    | by apply behaves_of_result
    | behave_getattr
    | apply behaves_getmethod_bind; [intros ?|done]
    | apply (behaves_extern w any any_answer); [|done]
    | apply behaves_try_except with (C' := any); [| intros ? _ _ | done]
    | apply behaves_for_each; intros ?
    | apply behaves_bind; [|intros ?]
    | case_decide
    | case_match
    | done ]).

Lemma create_or_update_behaves api_attr k kind name doc :
  (k = Client.Deployment → api_attr = "apps_v1") →
  ok (DescribeK8s.create_or_update w api_attr k kind name doc).
Proof.
  intros Hk. unfold DescribeK8s.create_or_update. go.
  all: destruct k; [rewrite (Hk eq_refl) in *| |]; issuable_solve.
Qed.

Lemma apply_document_behaves doc : ok (DescribeK8s.apply_document w doc).
Proof.
  unfold DescribeK8s.apply_document.
  apply behaves_bind; [by apply behaves_of_result | intros kind].
  apply behaves_bind; [by apply behaves_of_result | intros name].
  repeat case_decide;
    first [by apply create_or_update_behaves | apply behaves_print].
Qed.

Lemma apply_behaves filename : ok (DescribeK8s.apply w filename).
Proof.
  unfold DescribeK8s.apply, DescribeK8s.apply_stream.
  apply behaves_try_except with (C' := any); [|intros; apply behaves_print|done].
  apply behaves_bind; [by apply behaves_of_result | intros docs].
  apply behaves_bind.
  - apply behaves_for_each, apply_document_behaves.
  - intros _. case_match; [by apply behaves_raise | apply behaves_ret].
Qed.

Lemma create_behaves resource_type name image replicas :
  ok (DescribeK8s.create w resource_type name image replicas).
Proof. unfold DescribeK8s.create. go. all: issuable_solve. Qed.

Lemma switch_context_behaves context_name :
  ok (DescribeK8s.switch_context w context_name).
Proof. unfold DescribeK8s.switch_context. go. all: issuable_solve. Qed.

Lemma get_api_resources_behaves : ok (DescribeK8s.get_api_resources w).
Proof. unfold DescribeK8s.get_api_resources, invoke. go. all: issuable_solve. Qed.

Lemma configuration_host_behaves : ok (configuration_host w).
Proof. unfold configuration_host. go. Qed.

Lemma get_kube_dns_info_behaves : ok (DescribeK8s.get_kube_dns_info w).
Proof. unfold DescribeK8s.get_kube_dns_info. go. all: issuable_solve. Qed.

Lemma get_nodes_behaves : ok (DescribeK8s.get_nodes w).
Proof. unfold DescribeK8s.get_nodes, invoke. go. all: issuable_solve. Qed.

Lemma get_all_namespaces_behaves : ok (DescribeK8s.get_all_namespaces w).
Proof. unfold DescribeK8s.get_all_namespaces, invoke. go. all: issuable_solve. Qed.

Lemma list_pods_behaves : ok (DescribeK8s.list_pods w).
Proof.
  unfold DescribeK8s.list_pods, DescribeK8s.print_pod. go. all: issuable_solve.
Qed.

(** Every method leaves [self] as it is and makes only [issuable] calls. *)
Lemma op_behaves o : ok (Op.run w o).
Proof.
  destruct o; cbn [Op.run].
  - apply behaves_bind; [apply get_api_resources_behaves | intros; apply behaves_ret].
  - unfold DescribeK8s.get_api_server.
    apply behaves_bind; [|intros; apply behaves_ret].
    apply behaves_bind; [apply configuration_host_behaves | intros; apply behaves_ret].
  - apply behaves_bind; [apply get_kube_dns_info_behaves | intros; apply behaves_ret].
  - unfold DescribeK8s.get_kube_dns_url.
    apply behaves_bind; [|intros; apply behaves_ret].
    apply behaves_bind; [apply get_kube_dns_info_behaves|].
    intros [?|]; apply behaves_ret.
  - unfold DescribeK8s.print_api_versions. go. all: issuable_solve.
  - unfold DescribeK8s.print_cluster_info.
    apply behaves_bind; [apply get_api_resources_behaves | intros ?].
    apply behaves_bind; [case_match; behave_leaf | intros ?].
    apply behaves_bind; [apply configuration_host_behaves | intros ?]. go.
  - apply behaves_bind; [apply get_nodes_behaves | intros; apply behaves_ret].
  - apply behaves_bind; [apply get_all_namespaces_behaves | intros; apply behaves_ret].
  - unfold DescribeK8s.print_namespaces_info, DescribeK8s.print_namespace.
    apply behaves_bind; [apply get_all_namespaces_behaves | intros ?]. go.
  - apply list_pods_behaves.
  - unfold DescribeK8s.print_nodes_info, DescribeK8s.print_node.
    apply behaves_bind; [apply get_nodes_behaves | intros ?]. go.
  - apply behaves_bind; [apply switch_context_behaves | intros; apply behaves_ret].
  - apply apply_behaves.
  - apply create_behaves.
Qed.

End AnyWorld.

(** In a world whose calls fail only with [ApiException], on an instance
    that holds its [CoreV1Api] object and a namespace: no method raises,
    [create] of a deployment apart. *)
Section ApiWorld.

Variable w : world.
Hypothesis api_failures : ∀ h c e, answer w h c = Raise e → is_ApiException e = true.

Variable s : gmap string pyval.
Variable ns : pyval.
Hypothesis has_v1 : s !! "v1" = Some VCoreV1Api.
Hypothesis has_namespace : s !! "namespace" = Some ns.

Local Abbreviation never := (λ _ : exn, false).
Local Abbreviation anything := (λ _ : Client.call, True).

Ltac go :=
  repeat (cbn beta zeta; first
    [ behave_leaf
    | by apply behaves_raise
    | by apply behaves_of_result
    | behave_getattr
    | apply behaves_getmethod_bind; [intros ?|by cbn]
    | apply (behaves_extern w is_ApiException api_failures); [done|done]
    | lazymatch goal with
      | |- behaves _ _ _ (try_except _ ?cls _) =>
          apply behaves_try_except with (C' := cls);
          [| intros ? _ _ | intros; congruence]
      end
    | apply behaves_for_each; intros ?
    | apply behaves_bind; [|intros ?]
    | case_decide
    | case_match
    | done ]).


End ApiWorld.

Lemma init_constructs w namespace st :
  DescribeK8s.__init__ w namespace st
  = match answer w (log st) (Client.load_kube_config None) with
    | Ok _ =>
        (Ok tt,
         {| self := <["v1" := VCoreV1Api]>
                      (<["namespace" := VStr namespace]> (<["config" := VNone]> (self st)));
            log := log st ++ [Ev (Client.load_kube_config None) true];
            stdout := stdout st; clock := clock st |})
    | Raise e => (Raise e, logged (Ev (Client.load_kube_config None) false) st)
    end.
Proof.
  unfold DescribeK8s.__init__, bind, extern; cbn.
  by destruct (answer w (log st) (Client.load_kube_config None)).
Qed.

(** * Properties *)

(** ** Age bucketing *)

Module AgeFacts.
Import Age.

Ltac by_division :=
  unfold sub, unit_days, whole_seconds, us_per_day, us_per_second;
  cbn [days seconds microseconds];
  change (86400 * 1000000) with 86400000000;
  Z.div_mod_to_equations; lia.

Lemma seconds_of_sub now creation_time :
  seconds (sub now creation_time)
  = whole_seconds (now - creation_time) mod 86400.
Proof. by_division. Qed.

Lemma days_of_sub now creation_time :
  days (sub now creation_time) = unit_days (now - creation_time).
Proof. by_division. Qed.

Lemma mod_3600_of_day s : (s mod 86400) mod 3600 = s mod 3600.
Proof. by_division. Qed.

Lemma mod_60_of_hour s : (s mod 3600) mod 60 = s mod 60.
Proof. by_division. Qed.

Lemma calculate_age_first_nonzero now creation_time :
  creation_time ≤ now →
  calculate_age now creation_time = first_nonzero_unit (now - creation_time).
Proof.
  intros Hle. unfold calculate_age, first_nonzero_unit.
  rewrite days_of_sub, seconds_of_sub.
  set (d := now - creation_time).
  assert (Hd : 0 ≤ unit_days d).
  { unfold unit_days, whole_seconds, us_per_second.
    apply Z.div_pos; [apply Z.div_pos|]; lia. }
  unfold unit_hours, unit_minutes, unit_seconds.
  set (s := whole_seconds d).
  assert (Hs : 0 ≤ s mod 86400 < 86400) by (apply Z.mod_pos_bound; lia).
  destruct (Z.ltb_spec 0 (unit_days d)), (Z.eqb_spec (unit_days d) 0);
    simpl; try lia; try reflexivity.
  destruct (Z.leb_spec 3600 (s mod 86400)) as [H36|H36].
  - assert (0 < s mod 86400 / 3600) by (apply Z.div_str_pos; lia).
    destruct (Z.eqb_spec (s mod 86400 / 3600) 0); simpl; [lia|reflexivity].
  - rewrite (Z.div_small (s mod 86400) 3600) by lia. simpl.
    assert (Hm : s mod 3600 = s mod 86400).
    { rewrite <- mod_3600_of_day. apply Z.mod_small. lia. }
    rewrite Hm.
    destruct (Z.leb_spec 60 (s mod 86400)) as [H60|H60].
    + assert (0 < s mod 86400 / 60) by (apply Z.div_str_pos; lia).
      destruct (Z.eqb_spec (s mod 86400 / 60) 0); simpl; [lia|reflexivity].
    + rewrite (Z.div_small (s mod 86400) 60) by lia. simpl.
      do 2 f_equal. rewrite <- mod_60_of_hour, Hm. symmetry. apply Z.mod_small. lia.
Qed.

Lemma calculate_age_fixed now age_us :
  calculate_age now (now - age_us) = calculate_age age_us 0.
Proof.
  unfold calculate_age, sub.
  replace (now - (now - age_us)) with (age_us - 0) by lia. reflexivity.
Qed.

End AgeFacts.

(** C2. [calculate_age] prints the first unit that is not zero among the
    whole days, hours, minutes and seconds of the age, in that order, for
    every creation time that is not after the reading of the clock; a
    creation time exactly 90 seconds before now gives ["1m"], 3700 seconds
    ["1h"], two days ["2d"] and 30 seconds ["30s"]. *)
Theorem calculate_age_buckets :
  (∀ now creation_time,
     creation_time ≤ now →
     Age.calculate_age now creation_time = Age.first_nonzero_unit (now - creation_time))
  ∧ (∀ now, Age.calculate_age now (now - 90 * Age.us_per_second) = "1m")
  ∧ (∀ now, Age.calculate_age now (now - 3700 * Age.us_per_second) = "1h")
  ∧ (∀ now, Age.calculate_age now (now - 2 * Age.us_per_day) = "2d")
  ∧ (∀ now, Age.calculate_age now (now - 30 * Age.us_per_second) = "30s").
Proof.
  split; [exact AgeFacts.calculate_age_first_nonzero|].
  repeat split; intros now; rewrite AgeFacts.calculate_age_fixed;
    vm_compute; reflexivity.
Qed.

Lemma calculate_age_buckets_witness :
  1700000000000000 ≤ 1700000090000000
  ∧ Age.calculate_age 1700000090000000 1700000000000000
    = Age.first_nonzero_unit (1700000090000000 - 1700000000000000).
Proof.
  split; [lia|].
  apply (proj1 calculate_age_buckets 1700000090000000 1700000000000000). lia.
Defined.

(** ** Error handling *)




(** [constructed] is the state in which the constructor leaves a fresh
    process when the kubeconfig loads. *)
Lemma init_from_start w namespace :
  answer w [] (Client.load_kube_config None) = Ok tt →
  DescribeK8s.__init__ w namespace start = (Ok tt, constructed namespace).
Proof. intros H. rewrite init_constructs. cbn. by rewrite H. Qed.




(** ** Apply *)

Section ApplyFacts.

Variable w : world.
Variable ns : pyval.


End ApplyFacts.









(** ** The command line *)

(** C4, what the code does: whenever [--list-pods] is not given, a run of
    [main] that returns ends by printing the help text, after the action of
    the [if]/[elif] chain has run (the [else] that prints the help belongs
    to the test of [--list-pods], not to the chain). *)
Theorem main_prints_help_after_action (w : world) (args : Args) (st : state) :
  list_pods args = false →
  main w args start = (Ok tt, st) →
  ∃ st',
    (DescribeK8s.__init__ w "default" ;;
     (if truthy_arg (namespace args)
      then DescribeK8s.set_namespace (default "" (namespace args))
      else ret tt) ;;
     dispatch w args) start = (Ok tt, st')
    ∧ st = emit [None] 0 st'.
Proof.
  intros Hpods. unfold main. rewrite Hpods.
  rewrite (bind_run (DescribeK8s.__init__ w "default")).
  rewrite (bind_run (DescribeK8s.__init__ w "default")).
  destruct (DescribeK8s.__init__ w "default" start) as [[[]|e] st1]; [|by intros [=]].
  rewrite !bind_run.
  destruct ((if truthy_arg (namespace args)
             then DescribeK8s.set_namespace (default "" (namespace args))
             else ret tt) st1) as [[[]|e] st2]; [|by intros [=]].
  rewrite !bind_run.
  destruct (dispatch w args st2) as [[[]|e] st3]; [|by intros [=]].
  intros [= <-]. by exists st3.
Qed.

Lemma main_prints_help_after_action_witness :
  list_pods nodes_only = false
  ∧ main Worlds.calm nodes_only start
    = (Ok tt,
       {| self := inspector "default";
          log := [Ev (Client.load_kube_config None) true; Ev Client.list_node true];
          stdout := [Some "No nodes found or error occurred while fetching nodes."; None];
          clock := 0 |})
  ∧ ∃ st',
      (DescribeK8s.__init__ Worlds.calm "default" ;;
       (if truthy_arg (namespace nodes_only)
        then DescribeK8s.set_namespace (default "" (namespace nodes_only))
        else ret tt) ;;
       dispatch Worlds.calm nodes_only) start = (Ok tt, st')
      ∧ {| self := inspector "default";
           log := [Ev (Client.load_kube_config None) true; Ev Client.list_node true];
           stdout := [Some "No nodes found or error occurred while fetching nodes."; None];
           clock := 0 |} = emit [None] 0 st'.
Proof.
  split; [reflexivity|]. split; [reflexivity|].
  apply (main_prints_help_after_action Worlds.calm nodes_only); reflexivity.
Defined.

(** ** Switching the context *)

Lemma loaded_context_snoc h e :
  loaded_context (h ++ [e])
  = match ev_call e with
    | Client.load_kube_config context =>
        if ev_ok e then Some context else loaded_context h
    | _ => loaded_context h
    end.
Proof. unfold loaded_context. by rewrite fold_left_app. Qed.

(** C5, as the code has it.  Once the known contexts are listed: for a name
    that is absent, [switch_context] writes the not-found line, makes no
    further call, leaves [self] and the loaded configuration as they are
    and returns [False]; for a name that is present it calls
    [load_kube_config] for that context, and returns [True] when the load
    returns, [False] after the line describing the error when it raises. *)
Theorem switch_context_checks_name (w : world) (st : state) (context_name : string)
    (contexts : list Read.KubeContext) (active_context : Read.KubeContext) :
  answer w (log st) Client.list_kube_config_contexts = Ok (contexts, active_context) →
  let listed := logged (Ev Client.list_kube_config_contexts true) st in
  let load := Client.load_kube_config (Some context_name) in
  (context_name ∉ Read.context_name <$> contexts →
     DescribeK8s.switch_context w context_name st
     = (Ok false, emit [Some ("Context '" +:+ context_name +:+ "' not found.")] 0 listed)
     ∧ self (DescribeK8s.switch_context w context_name st).2 = self st
     ∧ loaded_context (log (DescribeK8s.switch_context w context_name st).2)
       = loaded_context (log st))
  ∧ (context_name ∈ Read.context_name <$> contexts →
       (answer w (log listed) load = Ok tt →
          DescribeK8s.switch_context w context_name st
          = (Ok true,
             emit [Some ("Switched to context '" +:+ context_name +:+ "'")] 0
               (logged (Ev load true) listed))
          ∧ loaded_context (log (DescribeK8s.switch_context w context_name st).2)
            = Some (Some context_name))
       ∧ (∀ e, answer w (log listed) load = Raise e →
            DescribeK8s.switch_context w context_name st
            = (Ok false,
               emit [Some ("Error switching context: " +:+ exn_str e)] 0
                 (logged (Ev load false) listed)))).
Proof.
  intros Hlist listed load.
  assert (Habsent : context_name ∉ Read.context_name <$> contexts →
            DescribeK8s.switch_context w context_name st
            = (Ok false,
               emit [Some ("Context '" +:+ context_name +:+ "' not found.")] 0 listed)).
  { intros Hno. unfold DescribeK8s.switch_context, try_except, bind, extern.
    rewrite Hlist. cbn. by rewrite decide_False by done. }
  split.
  - intros Hno. rewrite (Habsent Hno). split; [done|]. split; [done|].
    subst listed. cbn [snd log emit logged]. by rewrite loaded_context_snoc.
  - intros Hyes. split.
    + intros Hload.
      assert (DescribeK8s.switch_context w context_name st
              = (Ok true,
                 emit [Some ("Switched to context '" +:+ context_name +:+ "'")] 0
                   (logged (Ev load true) listed))) as ->.
      { unfold DescribeK8s.switch_context, try_except, bind, extern.
        rewrite Hlist. cbn. rewrite decide_True by done.
        cbn in Hload |- *. fold load. by rewrite Hload. }
      split; [done|]. subst listed load. cbn [snd log emit logged].
      by rewrite loaded_context_snoc.
    + intros e Hload.
      unfold DescribeK8s.switch_context, try_except, bind, extern.
      rewrite Hlist. cbn. rewrite decide_True by done.
      cbn in Hload |- *. fold load. by rewrite Hload.
Qed.

Lemma switch_context_checks_name_witness :
  answer Worlds.calm (log (constructed "default")) Client.list_kube_config_contexts
  = Ok ([ {| Read.context_name := "minikube" |} ], {| Read.context_name := "minikube" |})
  ∧ DescribeK8s.switch_context Worlds.calm "prod" (constructed "default")
    = (Ok false,
       emit [Some "Context 'prod' not found."] 0
         (logged (Ev Client.list_kube_config_contexts true) (constructed "default")))
  ∧ DescribeK8s.switch_context Worlds.calm "minikube" (constructed "default")
    = (Ok true,
       emit [Some "Switched to context 'minikube'"] 0
         (logged (Ev (Client.load_kube_config (Some "minikube")) true)
            (logged (Ev Client.list_kube_config_contexts true) (constructed "default")))).
Proof.
  split; [reflexivity|].
  pose proof (switch_context_checks_name Worlds.calm (constructed "default") "prod"
                _ _ eq_refl) as [Habsent _].
  pose proof (switch_context_checks_name Worlds.calm (constructed "default") "minikube"
                _ _ eq_refl) as [_ Hpresent].
  split.
  - apply Habsent. apply (bool_decide_unpack _). by vm_compute.
  - apply Hpresent; [apply (bool_decide_unpack _); by vm_compute | reflexivity].
Defined.

(** C5 fails as stated: the name [staging] is among the known contexts, the
    load of its configuration raises, and [switch_context] returns
    [False]. *)
Lemma switch_context_present_yet_False :
  "staging" ∈ ["minikube"; "staging"]
  ∧ answer Worlds.stale_context (log (constructed "default"))
      Client.list_kube_config_contexts
    = Ok ([ {| Read.context_name := "minikube" |}; {| Read.context_name := "staging" |} ],
          {| Read.context_name := "minikube" |})
  ∧ DescribeK8s.switch_context Worlds.stale_context "staging" (constructed "default")
    = (Ok false,
       {| self := inspector "default";
          log := [Ev (Client.load_kube_config None) true;
                  Ev Client.list_kube_config_contexts true;
                  Ev (Client.load_kube_config (Some "staging")) false];
          stdout := [Some "Error switching context: Invalid kube-config file. Expected object with name staging in kube-config/clusters list"];
          clock := 0 |}).
Proof.
  split; [apply (bool_decide_unpack _); by vm_compute|].
  split; [reflexivity|]. vm_compute. reflexivity.
Qed.

(** ** Listing the namespaces *)

Section Namespaces.

Variable w : world.

Lemma namespace_lines_length tick items :
  length (namespace_lines w tick items) = length items.
Proof. revert tick; induction items; intros tick; cbn; [done|by rewrite IHitems]. Qed.

Lemma namespace_lines_lookup tick items (i : nat) namespace :
  items !! i = Some namespace →
  namespace_lines w tick items !! i = Some (namespace_line w (i + tick) namespace).
Proof.
  revert tick i; induction items as [|x items IH]; intros tick [|i]; cbn; try done.
  - by intros [= ->].
  - intros H. etrans; [exact (IH (S tick) i H)|]. do 2 f_equal. lia.
Qed.

Lemma for_each_print_namespace items st :
  for_each items (DescribeK8s.print_namespace w) st
  = (Ok tt, emit (Some <$> namespace_lines w (clock st) items) (length items) st).
Proof.
  revert st; induction items as [|x items IH]; intros st.
  - cbn. by rewrite emit_nil.
  - rewrite for_each_cons.
    change (DescribeK8s.print_namespace w x st)
      with (Ok tt, emit [Some (namespace_line w (clock st) x)] 1 st).
    cbv beta iota.
    rewrite IH, emit_emit. cbn [clock emit]. do 2 f_equal. cbn. lia.
Qed.

End Namespaces.

(** C6, as the code has it.  After the header line [print_namespaces_info]
    writes one line per namespace of the listing, then an empty line; the
    line holds the name, the status and the age computed at that moment.
    The status is ["Unknown"] when the namespace has no status object;
    otherwise it is the phase of the status, rendered as ["None"] when the
    phase itself is absent. *)
Theorem print_namespaces_info_lines (w : world) (st : state) (items : list Read.Namespace) :
  self st !! "v1" = Some VCoreV1Api →
  answer w (log st) Client.list_namespace = Ok items →
  ∃ lines,
    DescribeK8s.print_namespaces_info w st
    = (Ok tt,
       emit (Some ("NAMESPACE" +:+ PyStr.tab +:+ "STATUS" +:+ PyStr.tab +:+ "AGE")
             :: (Some <$> lines) ++ [Some ""])
         (length items) (logged (Ev Client.list_namespace true) st))
    ∧ length lines = length items
    ∧ ∀ (i : nat) namespace,
        items !! i = Some namespace →
        ∃ status,
          lines !! i
          = Some (Read.name (Read.namespace_metadata namespace) +:+ PyStr.tab
                  +:+ status +:+ PyStr.tab
                  +:+ Age.calculate_age (utcnow w (i + clock st))
                        (Read.creation_timestamp (Read.namespace_metadata namespace)))
          ∧ (Read.namespace_status namespace = None → status = "Unknown")
          ∧ (∀ s phase,
               Read.namespace_status namespace = Some s →
               Read.namespace_phase s = Some phase → status = phase)
          ∧ (∀ s,
               Read.namespace_status namespace = Some s →
               Read.namespace_phase s = None → status = "None").
Proof.
  intros Hv1 Hlist. exists (namespace_lines w (clock st) items).
  split; [|split].
  - unfold DescribeK8s.print_namespaces_info, DescribeK8s.get_all_namespaces,
      try_except, bind, getattr, invoke, getmethod, extern.
    rewrite Hv1. cbn. rewrite Hlist. cbn.
    destruct items as [|x items].
    { cbn. unfold print, emit, logged; cbn. by rewrite <- app_assoc. }
    rewrite for_each_print_namespace.
    unfold print, emit, logged; cbn. rewrite <- !app_assoc. by do 2 f_equal.
  - apply namespace_lines_length.
  - intros i namespace Hi.
    exists (DescribeK8s.namespace_status_text namespace).
    split; [by apply namespace_lines_lookup|].
    unfold DescribeK8s.namespace_status_text.
    repeat split.
    + by intros ->.
    + by intros s phase -> ->.
    + by intros s -> ->.
Qed.

Lemma print_namespaces_info_lines_witness :
  self (constructed "default") !! "v1" = Some VCoreV1Api
  ∧ answer Worlds.three_namespaces (log (constructed "default")) Client.list_namespace
    = Ok Worlds.namespaces
  ∧ ∃ lines,
      DescribeK8s.print_namespaces_info Worlds.three_namespaces (constructed "default")
      = (Ok tt,
         emit (Some ("NAMESPACE" +:+ PyStr.tab +:+ "STATUS" +:+ PyStr.tab +:+ "AGE")
               :: (Some <$> lines) ++ [Some ""])
           3 (logged (Ev Client.list_namespace true) (constructed "default")))
      ∧ length lines = 3%nat.
Proof.
  split; [reflexivity|]. split; [reflexivity|].
  destruct (print_namespaces_info_lines Worlds.three_namespaces (constructed "default")
              Worlds.namespaces eq_refl eq_refl) as (lines & Hrun & Hlen & _).
  exists lines. split; [exact Hrun | exact Hlen].
Defined.

(** C6 fails as stated: the namespace [default] has a status without a
    phase, and its line shows [None], not [Unknown]. *)
Lemma phaseless_namespace_prints_None :
  stdout (DescribeK8s.print_namespaces_info Worlds.three_namespaces
            (constructed "default")).2
  = [ Some ("NAMESPACE" +:+ PyStr.tab +:+ "STATUS" +:+ PyStr.tab +:+ "AGE");
      Some ("default" +:+ PyStr.tab +:+ "None" +:+ PyStr.tab +:+ "2d");
      Some ("kube-system" +:+ PyStr.tab +:+ "Unknown" +:+ PyStr.tab +:+ "1h");
      Some ("dev" +:+ PyStr.tab +:+ "Active" +:+ PyStr.tab +:+ "1m");
      Some "" ].
Proof. vm_compute. reflexivity. Qed.

(** ** Creating a resource *)

Lemma create_deployment_raises w st resource_type name image replicas :
  PyStr.lower resource_type = "deployment" →
  self st !! "apps_v1" = None →
  DescribeK8s.create w resource_type name image replicas st
  = (Raise (AttributeError no_apps_v1), st).
Proof.
  intros Hrt Hnone. unfold DescribeK8s.create. rewrite Hrt.
  rewrite decide_True by done.
  unfold try_except, bind, getattr. by rewrite Hnone.
Qed.

(** C7, what the code does.  The deployment spec that [create] builds has
    the replica count given, the selector and the labels of the pod template
    both [{app: name}] and one container with the name and image given; but
    on an instance without [apps_v1] the deployment branch then raises
    [AttributeError] and no create call is made.  The service branch makes
    one create call in the current namespace, with a spec whose selector is
    [{app: name}] and whose only port is 80; any other type is reported as
    unsupported, without a call. *)
Theorem create_builds_and_sends (w : world) (st : state) (ns : pyval)
    (name : string) (image : option string) (replicas : option Z) :
  self st !! "v1" = Some VCoreV1Api →
  self st !! "namespace" = Some ns →
  self st !! "apps_v1" = None →
  let deployment := Build.deployment name image replicas in
  let service := Build.service name in
  (Build.replicas (Build.deployment_spec deployment) = replicas
   ∧ Build.match_labels (Build.selector (Build.deployment_spec deployment))
     = {[ "app" := name ]}
   ∧ Build.labels (Build.template_metadata (Build.template (Build.deployment_spec deployment)))
     = Some {[ "app" := name ]}
   ∧ Build.containers (Build.template_spec (Build.template (Build.deployment_spec deployment)))
     = [ {| Build.container_name := name; Build.image := image |} ])
  ∧ (Build.service_selector (Build.service_spec service) = {[ "app" := name ]}
     ∧ Build.ports (Build.service_spec service) = [ {| Build.port := 80 |} ])
  ∧ (∀ resource_type,
       PyStr.lower resource_type = "deployment" →
       DescribeK8s.create w resource_type name image replicas st
       = (Raise (AttributeError no_apps_v1), st))
  ∧ (∀ resource_type,
       PyStr.lower resource_type = "service" →
       let c := Client.create_namespaced Client.Service ns (Client.BodyService service) in
       log (DescribeK8s.create w resource_type name image replicas st).2
       = log st ++ [Ev c (is_Ok (answer w (log st) c))])
  ∧ (∀ resource_type,
       PyStr.lower resource_type ≠ "deployment" →
       PyStr.lower resource_type ≠ "service" →
       DescribeK8s.create w resource_type name image replicas st
       = (Ok tt, emit [Some ("Unsupported resource type: " +:+ resource_type)] 0 st)).
Proof.
  intros Hv1 Hns Hnone deployment service.
  split; [done|]. split; [done|]. split; [|split].
  - intros resource_type Hrt. by apply create_deployment_raises.
  - intros resource_type Hrt c. unfold DescribeK8s.create. rewrite Hrt.
    rewrite decide_False by done. rewrite decide_True by done.
    unfold try_except, bind, getattr, getmethod, extern.
    rewrite Hv1. cbn. rewrite Hns. cbn. fold service. fold c.
    destruct (answer w (log st) c) as [[]|e]; cbn; [done|].
    by destruct (is_ApiException e).
  - intros resource_type Hdep Hsvc. unfold DescribeK8s.create.
    by rewrite !decide_False by done.
Qed.

Lemma create_builds_and_sends_witness :
  self (constructed "default") !! "v1" = Some VCoreV1Api
  ∧ self (constructed "default") !! "namespace" = Some (VStr "default")
  ∧ self (constructed "default") !! "apps_v1" = None
  ∧ DescribeK8s.create Worlds.calm "deployment" "web" (Some "nginx") (Some 3)
      (constructed "default")
    = (Raise (AttributeError no_apps_v1), constructed "default").
Proof.
  split; [reflexivity|]. split; [reflexivity|]. split; [reflexivity|].
  destruct (create_builds_and_sends Worlds.calm (constructed "default") (VStr "default")
              "web" (Some "nginx") (Some 3) eq_refl eq_refl eq_refl)
    as (_ & _ & Hdep & _).
  apply Hdep. reflexivity.
Defined.

(** ** The attribute [apps_v1] *)

Lemma apply_document_deployment_raises w doc name st :
  Yaml.kind_lower doc = Ok "deployment" →
  Yaml.metadata_name doc = Ok name →
  self st !! "apps_v1" = None →
  DescribeK8s.apply_document w doc st = (Raise (AttributeError no_apps_v1), st).
Proof.
  intros Hkind Hname Hnone.
  unfold DescribeK8s.apply_document, bind, of_result. rewrite Hkind, Hname.
  rewrite decide_True by done.
  unfold DescribeK8s.create_or_update, bind, getattr. by rewrite Hnone.
Qed.

Lemma apply_run w filename docs trailing st :
  read_yaml w filename = Ok (docs, trailing) →
  DescribeK8s.apply w filename st
  = match for_each docs (DescribeK8s.apply_document w) st with
    | (Ok _, st') =>
        match trailing with
        | Some e => (Ok tt, emit [Some ("Error applying configuration: " +:+ exn_str e)] 0 st')
        | None => (Ok tt, st')
        end
    | (Raise e, st') =>
        (Ok tt, emit [Some ("Error applying configuration: " +:+ exn_str e)] 0 st')
    end.
Proof.
  intros Hfile.
  unfold DescribeK8s.apply, try_except, bind, of_result, DescribeK8s.apply_stream.
  rewrite Hfile. cbn [fst snd]. unfold bind.
  destruct (for_each docs (DescribeK8s.apply_document w) st) as [[[]|e] st']; [|done].
  by destruct trailing.
Qed.

(** C8, as the code has it.  The constructor does not define [apps_v1] and
    no method defines it afterwards.  On such an instance [create] of a
    deployment raises [AttributeError] before any call.  The loop body of
    [apply] raises it for a document of kind [deployment] that has a
    [metadata.name], which [apply] reports as its error line; a document
    of kind [deployment] without a [metadata.name] raises the error of
    that lookup instead, the name being read before the kind is looked at;
    either way the document raises before any call or output.  And no run
    of any method makes a create or patch call for a deployment. *)
Theorem apps_v1_is_never_defined (w : world) (st : state) :
  self st !! "apps_v1" = None →
  (∀ namespace st',
     DescribeK8s.__init__ w namespace st = (Ok tt, st') → self st' !! "apps_v1" = None)
  ∧ (∀ namespace,
       self (DescribeK8s.set_namespace namespace st).2 !! "apps_v1" = None)
  ∧ (∀ o, self (Op.run w o st).2 = self st)
  ∧ (∀ resource_type name image replicas,
       PyStr.lower resource_type = "deployment" →
       DescribeK8s.create w resource_type name image replicas st
       = (Raise (AttributeError no_apps_v1), st))
  ∧ (∀ doc name,
       Yaml.kind_lower doc = Ok "deployment" →
       Yaml.metadata_name doc = Ok name →
       DescribeK8s.apply_document w doc st = (Raise (AttributeError no_apps_v1), st))
  ∧ (∀ filename doc name after trailing,
       read_yaml w filename = Ok (doc :: after, trailing) →
       Yaml.kind_lower doc = Ok "deployment" →
       Yaml.metadata_name doc = Ok name →
       DescribeK8s.apply w filename st
       = (Ok tt, emit [Some ("Error applying configuration: " +:+ no_apps_v1)] 0 st))
  ∧ (∀ o, ∃ evs,
       log (Op.run w o st).2 = log st ++ evs
       ∧ Forall (λ e, Client.writes (ev_call e) ≠ Some Client.Deployment) evs)
  ∧ (∀ doc,
       Yaml.kind_lower doc = Ok "deployment" →
       DescribeK8s.apply_document w doc st
       = (Raise match Yaml.metadata_name doc with
                | Ok _ => AttributeError no_apps_v1
                | Raise e => e
                end,
          st)).
Proof.
  intros Hnone. repeat apply conj.
  - intros namespace st'. rewrite init_constructs.
    destruct (answer w (log st) _); [|done]. intros [= <-]. cbn. by simplify_map_eq.
  - intros namespace. cbn. by simplify_map_eq.
  - intros o. by destruct (op_behaves w (self st) o st eq_refl) as (Hself & _).
  - intros. by apply create_deployment_raises.
  - intros. by eapply apply_document_deployment_raises.
  - intros filename doc name after trailing Hfile Hkind Hname.
    rewrite (apply_run w filename _ _ st Hfile), for_each_cons.
    by rewrite (apply_document_deployment_raises w doc name st).
  - intros o. destruct (op_behaves w (self st) o st eq_refl) as (_ & (evs & Hlog & Hall) & _).
    exists evs. split; [done|].
    eapply Forall_impl; [exact Hall|]. intros e [_ He] Hw. cbn in He.
    specialize (He Hw). congruence.
  - intros doc Hkind.
    destruct (Yaml.metadata_name doc) as [name|e] eqn:Hname.
    + by eapply apply_document_deployment_raises.
    + unfold DescribeK8s.apply_document, bind, of_result. by rewrite Hkind, Hname.
Qed.

Lemma apps_v1_is_never_defined_witness :
  self start !! "apps_v1" = None
  ∧ self (constructed "default") !! "apps_v1" = None
  ∧ DescribeK8s.apply Worlds.calm_with_files "deployment.yaml" (constructed "default")
    = (Ok tt,
       emit [Some ("Error applying configuration: " +:+ no_apps_v1)] 0
         (constructed "default")).
Proof.
  split; [reflexivity|].
  destruct (apps_v1_is_never_defined Worlds.calm start eq_refl) as (Hinit & _).
  split; [exact (Hinit "default" (constructed "default") eq_refl)|].
  destruct (apps_v1_is_never_defined Worlds.calm_with_files (constructed "default") eq_refl)
    as (_ & _ & _ & _ & _ & Happly & _).
  apply (Happly "deployment.yaml" (Worlds.manifest "Deployment" "web") (YStr "web") [] None);
    reflexivity.
Defined.

(** C8 fails as stated: a document of kind [deployment] that has no
    [metadata] raises [KeyError] where its name is read, not
    [AttributeError]; [apply] reports that error. *)
Lemma apply_of_nameless_deployment_raises_KeyError :
  self (constructed "default") !! "apps_v1" = None
  ∧ Yaml.kind_lower Worlds.bare_deployment = Ok "deployment"
  ∧ DescribeK8s.apply_document Worlds.calm Worlds.bare_deployment (constructed "default")
    = (Raise (KeyError "'metadata'"), constructed "default")
  ∧ DescribeK8s.apply Worlds.calm_with_bare_deployment "bare.yaml" (constructed "default")
    = (Ok tt,
       emit [Some "Error applying configuration: 'metadata'"] 0 (constructed "default")).
Proof. repeat apply conj; vm_compute; reflexivity. Qed.

(** ** Documents without a name *)

Lemma metadata_name_Ok doc name :
  Yaml.metadata_name doc = Ok name → has_metadata_name doc.
Proof.
  unfold Yaml.metadata_name, Yaml.subscript.
  destruct doc as [| | | | |items]; try done.
  destruct (Yaml.assoc "metadata" items) as [metadata|] eqn:Hm; [|done].
  destruct metadata as [| | | | |fields]; try done.
  destruct (Yaml.assoc "name" fields) as [n|] eqn:Hn; [|done].
  intros _. by exists items, fields, n.
Qed.

Lemma nameless_document_raises w doc st :
  ¬ has_metadata_name doc →
  ∃ e, DescribeK8s.apply_document w doc st = (Raise e, st).
Proof.
  intros Hno. unfold DescribeK8s.apply_document, bind, of_result.
  destruct (Yaml.kind_lower doc) as [kind|e]; [|by exists e].
  destruct (Yaml.metadata_name doc) as [name|e] eqn:Hname; [|by exists e].
  destruct Hno. by eapply metadata_name_Ok.
Qed.

(** C9.  When the file holds a document that is empty or has no
    [metadata.name], [apply] is left at that document at the latest: the
    state it ends in is the state reached by the loop over the documents
    before it, plus the one line [Error applying configuration: ...]; so
    the calls made for the earlier documents stand, and no call is made
    and no line is written for that document or any later one.  If the
    earlier documents were all handled, the error reported is the one
    raised by that document. *)
Theorem apply_stops_at_nameless_document (w : world) (filename : string)
    (before : list yaml) (doc : yaml) (after : list yaml) (trailing : option exn)
    (st : state) :
  read_yaml w filename = Ok (before ++ doc :: after, trailing) →
  ¬ has_metadata_name doc →
  let earlier := for_each before (DescribeK8s.apply_document w) st in
  ∃ e,
    DescribeK8s.apply w filename st
    = (Ok tt, emit [Some ("Error applying configuration: " +:+ exn_str e)] 0 earlier.2)
    ∧ log (DescribeK8s.apply w filename st).2 = log earlier.2
    ∧ (earlier.1 = Ok tt →
       DescribeK8s.apply_document w doc earlier.2 = (Raise e, earlier.2))
    ∧ (∀ e', earlier.1 = Raise e' → e' = e).
Proof.
  intros Hfile Hno earlier.
  rewrite (apply_run w filename _ _ st Hfile), for_each_app.
  fold earlier. destruct earlier as [[[]|e'] st'] eqn:Hearlier; cbn [fst snd].
  - destruct (nameless_document_raises w doc st' Hno) as [e He].
    exists e. rewrite for_each_cons, He. by repeat split.
  - exists e'. repeat split; [done|]. by intros e'' [= ->].
Qed.

Lemma empty_document_has_no_name : ¬ has_metadata_name YNull.
Proof. by intros (items & metadata & name & [=] & _). Defined.

Lemma apply_stops_at_nameless_document_witness :
  read_yaml Worlds.calm_with_files "gap.yaml"
  = Ok ([Worlds.manifest "Service" "web"] ++ YNull :: [Worlds.manifest "Pod" "worker"], None)
  ∧ ¬ has_metadata_name YNull
  ∧ DescribeK8s.apply Worlds.calm_with_files "gap.yaml" (constructed "default")
    = (Ok tt,
       {| self := inspector "default";
          log := [Ev (Client.load_kube_config None) true;
                  Ev (Client.create_namespaced Client.Service (VStr "default")
                        (Client.BodyDoc (Worlds.manifest "Service" "web"))) true];
          stdout := [Some "Service 'web' created.";
                     Some "Error applying configuration: 'NoneType' object has no attribute 'get'"];
          clock := 0 |}).
Proof.
  split; [reflexivity|]. split; [exact empty_document_has_no_name|].
  destruct (apply_stops_at_nameless_document Worlds.calm_with_files "gap.yaml"
              [Worlds.manifest "Service" "web"] YNull [Worlds.manifest "Pod" "worker"]
              None (constructed "default") eq_refl empty_document_has_no_name)
    as (e & Hrun & _ & He & _).
  rewrite Hrun. specialize (He eq_refl). injection He as <-. reflexivity.
Defined.

(** ** The current namespace *)

Section MainFacts.

Variable w : world.

Lemma dispatch_behaves s args :
  behaves (issuable s) s (λ _, true) (dispatch w args).
Proof.
  unfold dispatch.
  destruct (cluster_info args); [exact (op_behaves w s Op.print_cluster_info)|].
  destruct (api_versions args); [exact (op_behaves w s Op.print_api_versions)|].
  destruct (nodes args); [exact (op_behaves w s Op.print_nodes_info)|].
  destruct (list_namespaces args); [exact (op_behaves w s Op.print_namespaces_info)|].
  destruct (truthy_arg (switch_context args));
    [exact (op_behaves w s (Op.switch_context _))|].
  destruct (truthy_arg (apply args)); [exact (op_behaves w s (Op.apply _))|].
  destruct (create args) as [[[resource_type name] image]|];
    [exact (op_behaves w s (Op.create _ _ _ _)) | apply behaves_ret].
Qed.

Lemma prepare_run args :
  (DescribeK8s.__init__ w "default" ;;
   (if truthy_arg (namespace args)
    then DescribeK8s.set_namespace (default "" (namespace args))
    else ret tt)) start
  = match answer w [] (Client.load_kube_config None) with
    | Ok _ =>
        (Ok tt,
         {| self := <["namespace" := VStr (effective_namespace args)]> (inspector "default");
            log := [Ev (Client.load_kube_config None) true];
            stdout := []; clock := 0 |})
    | Raise e =>
        (Raise e,
         {| self := ∅; log := [Ev (Client.load_kube_config None) false];
            stdout := []; clock := 0 |})
    end.
Proof.
  rewrite bind_run, init_constructs. cbn [log start self stdout clock app].
  destruct (answer w [] (Client.load_kube_config None)) as [[]|e]; [|done].
  unfold effective_namespace, truthy_arg.
  destruct (namespace args) as [ns|]; cbn.
  - destruct (PyStr.truthy ns); cbn; [done|]. by do 2 f_equal.
  - by do 2 f_equal.
Qed.

Lemma main_targets args e ns :
  e ∈ log (main w args start).2 →
  Client.target (ev_call e) = Some ns →
  ns = VStr (effective_namespace args).
Proof.
  set (s := <["namespace" := VStr (effective_namespace args)]> (inspector "default")).
  assert (Hrest : behaves (issuable s) s (λ _, true)
            (dispatch w args ;;
             if list_pods args then DescribeK8s.list_pods w else print_help)).
  { apply behaves_bind; [apply dispatch_behaves|]. intros _.
    destruct (list_pods args); [apply list_pods_behaves | apply behaves_print_help]. }
  assert (Hmain : main w args start
            = ((DescribeK8s.__init__ w "default" ;;
                (if truthy_arg (namespace args)
                 then DescribeK8s.set_namespace (default "" (namespace args))
                 else ret tt)) ;;
               (dispatch w args ;;
                if list_pods args then DescribeK8s.list_pods w else print_help)) start).
  { unfold main, bind.
    by destruct (DescribeK8s.__init__ w "default" start) as [[[]|?] st1]. }
  rewrite Hmain, bind_run, prepare_run. fold s.
  destruct (answer w [] (Client.load_kube_config None)) as [[]|e0].
  - match goal with |- context [ (_ ;; _) ?st ] => set (st2 := st) end.
    destruct (Hrest st2 eq_refl) as (_ & (evs & Hlog & Hall) & _).
    rewrite Hlog. cbn [log st2]. intros [He|He]%elem_of_app Ht.
    + apply list_elem_of_singleton in He as ->. done.
    + rewrite Forall_forall in Hall. destruct (Hall e He) as [Htarget _].
      specialize (Htarget ns Ht). unfold s in Htarget.
      rewrite lookup_insert_eq in Htarget. congruence.
  - cbn. intros He%list_elem_of_singleton Ht. by subst e.
Qed.

End MainFacts.

(** C10, as the code has it.  [main] constructs the instance with the
    namespace ["default"] and overwrites the field with the value of
    [--namespace] exactly when that value is given and is not the empty
    string; no method other than [set_namespace] changes the attributes of
    [self]; every namespaced call a method makes targets the value of the
    field; and so every namespaced call of a run of [main] targets the
    namespace set at its start. *)
Theorem namespace_is_the_target (w : world) :
  (∀ args st,
     (DescribeK8s.__init__ w "default" ;;
      (if truthy_arg (namespace args)
       then DescribeK8s.set_namespace (default "" (namespace args))
       else ret tt)) start = (Ok tt, st) →
     self st !! "namespace" = Some (VStr (effective_namespace args)))
  ∧ (∀ o st, self (Op.run w o st).2 = self st)
  ∧ (∀ o st, ∃ evs,
       log (Op.run w o st).2 = log st ++ evs
       ∧ Forall (λ e, ∀ ns, Client.target (ev_call e) = Some ns →
                            self st !! "namespace" = Some ns) evs)
  ∧ (∀ args e ns,
       e ∈ log (main w args start).2 →
       Client.target (ev_call e) = Some ns →
       ns = VStr (effective_namespace args)).
Proof.
  repeat apply conj.
  - intros args st. rewrite prepare_run.
    destruct (answer w [] _); [|done]. intros [= <-]. cbn. by rewrite lookup_insert_eq.
  - intros o st. by destruct (op_behaves w (self st) o st eq_refl) as (Hself & _).
  - intros o st.
    destruct (op_behaves w (self st) o st eq_refl) as (_ & (evs & Hlog & Hall) & _).
    exists evs. split; [done|].
    eapply Forall_impl; [exact Hall|]. by intros e [He _].
  - apply main_targets.
Qed.

Lemma namespace_is_the_target_witness :
  (DescribeK8s.__init__ Worlds.calm "default" ;;
   (if truthy_arg (namespace pods_of_kube_system)
    then DescribeK8s.set_namespace (default "" (namespace pods_of_kube_system))
    else ret tt)) start
  = (Ok tt,
     {| self := <["namespace" := VStr "kube-system"]> (inspector "default");
        log := [Ev (Client.load_kube_config None) true]; stdout := []; clock := 0 |})
  ∧ <["namespace" := VStr "kube-system"]> (inspector "default") !! "namespace"
    = Some (VStr "kube-system")
  ∧ log (main Worlds.calm pods_of_kube_system start).2
    = [Ev (Client.load_kube_config None) true;
       Ev (Client.list_namespaced_pod (VStr "kube-system")) true].
Proof.
  split; [reflexivity|]. split; [|reflexivity].
  exact (proj1 (namespace_is_the_target Worlds.calm) pods_of_kube_system
           {| self := <["namespace" := VStr "kube-system"]> (inspector "default");
              log := [Ev (Client.load_kube_config None) true];
              stdout := []; clock := 0 |} eq_refl).
Defined.

(** C10 fails as stated: [--namespace ''] supplies the argument, yet the
    field keeps ["default"], and the pods of [default] are listed. *)
Lemma empty_namespace_is_not_set :
  namespace pods_of_empty_namespace = Some ""
  ∧ self (main Worlds.calm pods_of_empty_namespace start).2 !! "namespace"
    = Some (VStr "default")
  ∧ log (main Worlds.calm pods_of_empty_namespace start).2
    = [Ev (Client.load_kube_config None) true;
       Ev (Client.list_namespaced_pod (VStr "default")) true].
Proof. split; [reflexivity|]. split; vm_compute; reflexivity. Qed.

(** * Further properties of the code *)

(** ** The text of an age *)

Module AgeShape.
Import Age.

Lemma seconds_bound now creation_time :
  0 ≤ seconds (sub now creation_time) < 86400.
Proof.
  unfold sub, us_per_day, us_per_second; cbn [seconds].
  change (86400 * 1000000) with 86400000000.
  Z.div_mod_to_equations. lia.
Qed.

End AgeShape.

(** X1.  Whatever the two times are, the text of [calculate_age] is a
    number followed by one unit letter, within the range of the unit: at
    least one day, 1 to 23 hours, 1 to 59 minutes, or 0 to 59 seconds. *)
Theorem calculate_age_shape (now creation_time : Z) :
  ∃ (n : Z) (unit : string),
    Age.calculate_age now creation_time = pretty n +:+ unit
    ∧ ((unit = "d" ∧ 1 ≤ n)
       ∨ (unit = "h" ∧ 1 ≤ n ≤ 23)
       ∨ (unit = "m" ∧ 1 ≤ n ≤ 59)
       ∨ (unit = "s" ∧ 0 ≤ n ≤ 59)).
Proof.
  unfold Age.calculate_age.
  pose proof (AgeShape.seconds_bound now creation_time) as Hs.
  set (age := Age.sub now creation_time) in *.
  destruct (Z.ltb_spec 0 (Age.days age)).
  { exists (Age.days age), "d". split; [done|]. left. split; [done|lia]. }
  destruct (Z.leb_spec 3600 (Age.seconds age)).
  { exists (Age.seconds age / 3600), "h". split; [done|]. right; left.
    split; [done|]. Z.div_mod_to_equations. lia. }
  destruct (Z.leb_spec 60 (Age.seconds age)).
  { exists (Age.seconds age / 60), "m". split; [done|]. right; right; left.
    split; [done|]. Z.div_mod_to_equations. lia. }
  exists (Age.seconds age), "s". split; [done|]. right; right; right.
  split; [done|lia].
Qed.

(** X2.  A creation time in the future, by up to one day, never shows
    days: the text is that of an age of one day minus the lead, so that a
    resource stamped 30 seconds ahead of the local clock shows [23h]. *)
Theorem calculate_age_of_future_creation (now lead : Z) :
  0 < lead ≤ Age.us_per_day →
  Age.calculate_age now (now + lead) = Age.calculate_age (Age.us_per_day - lead) 0
  ∧ Age.days (Age.sub now (now + lead)) = -1
  ∧ (lead = 30 * Age.us_per_second → Age.calculate_age now (now + lead) = "23h").
Proof.
  intros Hlead.
  assert (Hdays : Age.days (Age.sub now (now + lead)) = -1).
  { unfold Age.sub, Age.us_per_day, Age.us_per_second in *; cbn [Age.days].
    change (86400 * 1000000) with 86400000000 in *.
    Z.div_mod_to_equations. lia. }
  assert (Hdays' : Age.days (Age.sub (Age.us_per_day - lead) 0) = 0).
  { unfold Age.sub, Age.us_per_day, Age.us_per_second in *; cbn [Age.days].
    change (86400 * 1000000) with 86400000000 in *.
    Z.div_mod_to_equations. lia. }
  assert (Hsec : Age.seconds (Age.sub now (now + lead))
                 = Age.seconds (Age.sub (Age.us_per_day - lead) 0)).
  { unfold Age.sub, Age.us_per_day, Age.us_per_second in *; cbn [Age.seconds].
    change (86400 * 1000000) with 86400000000 in *.
    Z.div_mod_to_equations. lia. }
  assert (Heq : Age.calculate_age now (now + lead)
                = Age.calculate_age (Age.us_per_day - lead) 0).
  { unfold Age.calculate_age. cbv zeta. by rewrite Hdays, Hdays', Hsec. }
  split; [exact Heq|]. split; [exact Hdays|].
  intros ->. rewrite Heq. vm_compute. reflexivity.
Qed.

Lemma calculate_age_of_future_creation_witness :
  0 < 30000000 ≤ Age.us_per_day
  ∧ Age.calculate_age 1700000000000000 (1700000000000000 + 30000000) = "23h".
Proof.
  assert (H : 0 < 30000000 ≤ Age.us_per_day) by (unfold Age.us_per_day, Age.us_per_second; lia).
  split; [exact H|].
  apply (calculate_age_of_future_creation 1700000000000000 30000000 H). reflexivity.
Defined.

(** ** The listings *)

Section Listings.

Variable w : world.

Lemma for_each_lines {A} (l : list A) (body : A → M unit) (lines : A → list string) st :
  (∀ x st, body x st = (Ok tt, emit (Some <$> lines x) 0 st)) →
  for_each l body st = (Ok tt, emit (Some <$> concat (lines <$> l)) 0 st).
Proof.
  intros Hbody. revert st; induction l as [|x l IH]; intros st.
  - cbn. by rewrite emit_nil.
  - rewrite for_each_cons, Hbody, IH, emit_emit. cbn.
    by rewrite fmap_app.
Qed.

Lemma print_pod_run pod st :
  DescribeK8s.print_pod pod st = (Ok tt, emit (Some <$> pod_lines pod) 0 st).
Proof.
  unfold DescribeK8s.print_pod, bind, print, emit, pod_lines; cbn.
  by rewrite <- !app_assoc.
Qed.



End Listings.

Lemma first_kube_dns_none items :
  (∀ service, service ∈ items → Read.name (Read.service_metadata service) ≠ "kube-dns") →
  DescribeK8s.first_kube_dns items = None.
Proof.
  induction items as [|x items IH]; intros Hno; [done|]. cbn.
  rewrite decide_False by (apply Hno; by left).
  apply IH. intros service Hin. apply Hno. by right.
Qed.

Lemma first_kube_dns_first before service after :
  (∀ other, other ∈ before → Read.name (Read.service_metadata other) ≠ "kube-dns") →
  Read.name (Read.service_metadata service) = "kube-dns" →
  DescribeK8s.first_kube_dns (before ++ service :: after)
  = Read.cluster_ip (Read.service_spec service).
Proof.
  intros Hno Hname. induction before as [|x before IH]; cbn.
  - by rewrite decide_True.
  - rewrite decide_False by (apply Hno; by left).
    apply IH. intros other Hin. apply Hno. by right.
Qed.

Lemma get_kube_dns_url_run w st ns :
  self st !! "v1" = Some VCoreV1Api →
  self st !! "namespace" = Some ns →
  DescribeK8s.get_kube_dns_url w st
  = match answer w (log st) (Client.list_namespaced_service ns) with
    | Ok items =>
        (Ok (DescribeK8s.first_kube_dns items),
         logged (Ev (Client.list_namespaced_service ns) true) st)
    | Raise e =>
        if is_ApiException e then
          (Ok None,
           emit [Some ("Error getting KubeDNS info: " +:+ exn_str e)] 0
             (logged (Ev (Client.list_namespaced_service ns) false) st))
        else (Raise e, logged (Ev (Client.list_namespaced_service ns) false) st)
    end.
Proof.
  intros Hv1 Hns.
  unfold DescribeK8s.get_kube_dns_url, DescribeK8s.get_kube_dns_info,
    try_except, bind, getattr, getmethod, extern.
  rewrite Hv1. cbn. rewrite Hns. cbn.
  destruct (answer w (log st) _) as [items|e]; cbn; [done|].
  by destruct (is_ApiException e).
Qed.

(** X3.  [get_kube_dns_url] makes one call, the listing of the services of
    the current namespace.  It returns the cluster IP of the first service
    named [kube-dns], whatever follows it in the listing; [None] when no
    service has that name; and [None], after one line describing the error,
    when the listing fails with an [ApiException]. *)
Theorem get_kube_dns_url_first_match (w : world) (st : state) (ns : pyval) :
  self st !! "v1" = Some VCoreV1Api →
  self st !! "namespace" = Some ns →
  let c := Client.list_namespaced_service ns in
  (∀ before service after,
     answer w (log st) c = Ok (before ++ service :: after) →
     (∀ other, other ∈ before → Read.name (Read.service_metadata other) ≠ "kube-dns") →
     Read.name (Read.service_metadata service) = "kube-dns" →
     DescribeK8s.get_kube_dns_url w st
     = (Ok (Read.cluster_ip (Read.service_spec service)), logged (Ev c true) st))
  ∧ (∀ items,
       answer w (log st) c = Ok items →
       (∀ service, service ∈ items →
                   Read.name (Read.service_metadata service) ≠ "kube-dns") →
       DescribeK8s.get_kube_dns_url w st = (Ok None, logged (Ev c true) st))
  ∧ (∀ status msg,
       answer w (log st) c = Raise (ApiException status msg) →
       DescribeK8s.get_kube_dns_url w st
       = (Ok None,
          emit [Some ("Error getting KubeDNS info: " +:+ msg)] 0 (logged (Ev c false) st))).
Proof.
  intros Hv1 Hns c. repeat apply conj.
  - intros before service after Ha Hno Hname.
    rewrite (get_kube_dns_url_run w st ns Hv1 Hns). fold c. rewrite Ha.
    by rewrite first_kube_dns_first.
  - intros items Ha Hno.
    rewrite (get_kube_dns_url_run w st ns Hv1 Hns). fold c. rewrite Ha.
    by rewrite first_kube_dns_none.
  - intros status msg Ha.
    rewrite (get_kube_dns_url_run w st ns Hv1 Hns). fold c. by rewrite Ha.
Qed.

Lemma get_kube_dns_url_first_match_witness :
  self (constructed "kube-system") !! "v1" = Some VCoreV1Api
  ∧ self (constructed "kube-system") !! "namespace" = Some (VStr "kube-system")
  ∧ DescribeK8s.get_kube_dns_url Inventory.world (constructed "kube-system")
    = (Ok (Some "10.96.0.10"),
       logged (Ev (Client.list_namespaced_service (VStr "kube-system")) true)
         (constructed "kube-system")).
Proof.
  split; [reflexivity|]. split; [reflexivity|].
  destruct (get_kube_dns_url_first_match Inventory.world (constructed "kube-system")
              (VStr "kube-system") eq_refl eq_refl) as (Hfirst & _).
  refine (Hfirst [_] _ [] eq_refl _ eq_refl).
  intros other Hin. apply list_elem_of_singleton in Hin as ->. discriminate.
Defined.

(** X4.  [list_pods] lists the pods of the current namespace with a client
    object of its own (it does not need [self.v1]).  When the listing
    returns it writes the header naming the namespace, then five lines per
    pod in the order of the listing: for an empty namespace the header
    alone.  When the listing fails with an [ApiException] it writes the one
    error line, without the header. *)
Theorem list_pods_lines (w : world) (st : state) (ns : pyval) :
  self st !! "namespace" = Some ns →
  let c := Client.list_namespaced_pod ns in
  let header := "Pods in namespace '" +:+ pyval_str ns +:+ "':" in
  (∀ pods,
     answer w (log st) c = Ok pods →
     DescribeK8s.list_pods w st
     = (Ok tt, emit (Some <$> header :: concat (pod_lines <$> pods)) 0 (logged (Ev c true) st))
     ∧ length (header :: concat (pod_lines <$> pods)) = (1 + 5 * length pods)%nat)
  ∧ (answer w (log st) c = Ok [] →
     DescribeK8s.list_pods w st = (Ok tt, emit [Some header] 0 (logged (Ev c true) st)))
  ∧ (∀ status msg,
       answer w (log st) c = Raise (ApiException status msg) →
       DescribeK8s.list_pods w st
       = (Ok tt,
          emit [Some ("Exception when calling CoreV1Api->list_namespaced_pod: " +:+ msg)] 0
            (logged (Ev c false) st))).
Proof.
  intros Hns c header.
  assert (Hrun : ∀ pods,
            answer w (log st) c = Ok pods →
            DescribeK8s.list_pods w st
            = (Ok tt, emit (Some <$> header :: concat (pod_lines <$> pods)) 0
                        (logged (Ev c true) st))).
  { intros pods Ha.
    unfold DescribeK8s.list_pods, try_except, bind, getattr, getmethod, extern.
    cbn. rewrite Hns. cbn. fold c. rewrite Ha. cbn. rewrite Hns. cbn.
    rewrite (for_each_lines _ _ pod_lines) by (intros; apply print_pod_run).
    unfold print, emit, logged; cbn. by rewrite <- !app_assoc. }
  repeat apply conj.
  - intros pods Ha. split; [by apply Hrun|].
    assert (Hlen : length (concat (pod_lines <$> pods)) = (5 * length pods)%nat).
    { clear. induction pods as [|pod pods IH]; [done|].
      rewrite fmap_cons. cbn [concat]. rewrite length_app, IH. cbn. lia. }
    cbn [length]. rewrite Hlen. lia.
  - intros Ha. by rewrite (Hrun [] Ha).
  - intros status msg Ha.
    unfold DescribeK8s.list_pods, try_except, bind, getattr, getmethod, extern.
    cbn. rewrite Hns. cbn. fold c. by rewrite Ha.
Qed.

Lemma list_pods_lines_witness :
  self (constructed "default") !! "namespace" = Some (VStr "default")
  ∧ stdout (DescribeK8s.list_pods Inventory.world (constructed "default")).2
    = [ Some "Pods in namespace 'default':";
        Some "Name: web-1"; Some "  Status: Running"; Some "  IP: 10.1.0.4";
        Some "  Node: node-a"; Some "---";
        Some "Name: web-2"; Some "  Status: Pending"; Some "  IP: None";
        Some "  Node: None"; Some "---" ]
  ∧ stdout (DescribeK8s.list_pods Worlds.calm (constructed "default")).2
    = [ Some "Pods in namespace 'default':" ].
Proof.
  split; [reflexivity|].
  destruct (list_pods_lines Inventory.world (constructed "default") (VStr "default") eq_refl)
    as (Hrun & _).
  destruct (list_pods_lines Worlds.calm (constructed "default") (VStr "default") eq_refl)
    as (_ & Hempty & _).
  split.
  - destruct (Hrun Inventory.pods eq_refl) as [-> _]. reflexivity.
  - rewrite (Hempty eq_refl). reflexivity.
Defined.




(** X6.  [print_cluster_info] makes exactly one call, [get_api_resources]:
    the KubeDNS line is built from the host of the configuration and no
    service is looked up.  The two endpoint lines are written whether the
    call returned (after the count of the resources) or failed with an
    [ApiException] (after the error line); a failure of another class
    leaves the method before anything is written. *)
Theorem print_cluster_info_lines (w : world) (st : state) :
  self st !! "v1" = Some VCoreV1Api →
  let c := Client.get_api_resources in
  log (DescribeK8s.print_cluster_info w st).2
  = log st ++ [Ev c (is_Ok (answer w (log st) c))]
  ∧ (∀ r,
       answer w (log st) c = Ok r →
       DescribeK8s.print_cluster_info w st
       = (Ok tt,
          emit (Some <$> ("API Resources: " +:+ pretty (length (Read.resources r)))
                         :: endpoint_lines (host w)) 0
            (logged (Ev c true) st)))
  ∧ (∀ status msg,
       answer w (log st) c = Raise (ApiException status msg) →
       DescribeK8s.print_cluster_info w st
       = (Ok tt,
          emit (Some <$> ("Error getting API resources: " +:+ msg)
                         :: endpoint_lines (host w)) 0
            (logged (Ev c false) st)))
  ∧ (∀ e,
       answer w (log st) c = Raise e → is_ApiException e = false →
       DescribeK8s.print_cluster_info w st = (Raise e, logged (Ev c false) st)).
Proof.
  intros Hv1 c.
  assert (Hrun : DescribeK8s.print_cluster_info w st
            = match answer w (log st) c with
              | Ok r =>
                  (Ok tt,
                   emit (Some <$> ("API Resources: " +:+ pretty (length (Read.resources r)))
                                  :: endpoint_lines (host w)) 0
                     (logged (Ev c true) st))
              | Raise e =>
                  if is_ApiException e then
                    (Ok tt,
                     emit (Some <$> ("Error getting API resources: " +:+ exn_str e)
                                    :: endpoint_lines (host w)) 0
                       (logged (Ev c false) st))
                  else (Raise e, logged (Ev c false) st)
              end).
  { unfold DescribeK8s.print_cluster_info, DescribeK8s.get_api_resources,
      configuration_host, try_except, bind, getattr, invoke, getmethod, extern.
    rewrite Hv1. cbn. fold c.
    destruct (answer w (log st) c) as [r|e]; cbn.
    - rewrite Hv1. cbn. unfold print, emit, logged; cbn. by rewrite <- !app_assoc.
    - destruct (is_ApiException e); cbn; [|done].
      rewrite Hv1. cbn. unfold print, emit, logged; cbn. by rewrite <- !app_assoc. }
  repeat apply conj.
  - rewrite Hrun. destruct (answer w (log st) c) as [r|e]; [done|].
    by destruct (is_ApiException e).
  - intros r Ha. by rewrite Hrun, Ha.
  - intros status msg Ha. by rewrite Hrun, Ha.
  - intros e Ha He. by rewrite Hrun, Ha, He.
Qed.

Lemma print_cluster_info_lines_witness :
  self (constructed "default") !! "v1" = Some VCoreV1Api
  ∧ DescribeK8s.print_cluster_info Worlds.forbidden (constructed "default")
    = (Ok tt,
       {| self := inspector "default";
          log := [Ev (Client.load_kube_config None) true;
                  Ev Client.get_api_resources false];
          stdout :=
            [ Some "Error getting API resources: Forbidden";
              Some "KubeDNS is running at http://https://127.0.0.1:6443/api/v1/namespaces/kube-system/services/kube-dns:dns/proxy";
              Some "Kubernetes control plane is running at https://127.0.0.1:6443" ];
          clock := 0 |}).
Proof.
  split; [reflexivity|].
  destruct (print_cluster_info_lines Worlds.forbidden (constructed "default") eq_refl)
    as (_ & _ & Hfail & _).
  rewrite (Hfail 403 "Forbidden" eq_refl). reflexivity.
Defined.

(** X7.  When the listing of the namespaces is empty, or fails with an
    [ApiException], [print_namespaces_info] still writes the header line
    and the closing empty line (after the error line in the second case),
    and does not read the clock. *)
Theorem print_namespaces_info_without_items (w : world) (st : state) :
  self st !! "v1" = Some VCoreV1Api →
  let header := "NAMESPACE" +:+ PyStr.tab +:+ "STATUS" +:+ PyStr.tab +:+ "AGE" in
  (answer w (log st) Client.list_namespace = Ok [] →
   DescribeK8s.print_namespaces_info w st
   = (Ok tt, emit [Some header; Some ""] 0 (logged (Ev Client.list_namespace true) st)))
  ∧ (∀ status msg,
       answer w (log st) Client.list_namespace = Raise (ApiException status msg) →
       DescribeK8s.print_namespaces_info w st
       = (Ok tt,
          emit [Some ("Exception when listing namespaces: " +:+ msg); Some header; Some ""] 0
            (logged (Ev Client.list_namespace false) st))).
Proof.
  intros Hv1 header. split.
  - intros Ha.
    unfold DescribeK8s.print_namespaces_info, DescribeK8s.get_all_namespaces,
      try_except, bind, getattr, invoke, getmethod, extern.
    rewrite Hv1. cbn. rewrite Ha. cbn.
    unfold print, emit, logged; cbn. by rewrite <- !app_assoc.
  - intros status msg Ha.
    unfold DescribeK8s.print_namespaces_info, DescribeK8s.get_all_namespaces,
      try_except, bind, getattr, invoke, getmethod, extern.
    rewrite Hv1. cbn. rewrite Ha. cbn.
    unfold print, emit, logged; cbn. by rewrite <- !app_assoc.
Qed.

Lemma print_namespaces_info_without_items_witness :
  self (constructed "default") !! "v1" = Some VCoreV1Api
  ∧ stdout (DescribeK8s.print_namespaces_info Worlds.forbidden (constructed "default")).2
    = [ Some "Exception when listing namespaces: Forbidden";
        Some ("NAMESPACE" +:+ PyStr.tab +:+ "STATUS" +:+ PyStr.tab +:+ "AGE");
        Some "" ].
Proof.
  split; [reflexivity|].
  destruct (print_namespaces_info_without_items Worlds.forbidden (constructed "default")
              eq_refl) as (_ & Hfail).
  rewrite (Hfail 403 "Forbidden" eq_refl). reflexivity.
Defined.

(** ** Apply: the file and the fields of a document *)

(** X8.  What [apply] does with the file itself.  A file that cannot be
    opened gives the one line [Error applying configuration: ...] and no
    call; a file without documents gives nothing at all; and when the
    stream of documents ends in a parse error, the documents before it have
    been handled and the error line comes last. *)
Theorem apply_file_level (w : world) (filename : string) (st : state) :
  (∀ e,
     read_yaml w filename = Raise e →
     DescribeK8s.apply w filename st
     = (Ok tt, emit [Some ("Error applying configuration: " +:+ exn_str e)] 0 st))
  ∧ (read_yaml w filename = Ok ([], None) →
     DescribeK8s.apply w filename st = (Ok tt, st))
  ∧ (∀ docs e st',
       read_yaml w filename = Ok (docs, Some e) →
       for_each docs (DescribeK8s.apply_document w) st = (Ok tt, st') →
       DescribeK8s.apply w filename st
       = (Ok tt, emit [Some ("Error applying configuration: " +:+ exn_str e)] 0 st')).
Proof.
  repeat apply conj.
  - intros e Hfile.
    unfold DescribeK8s.apply, try_except, bind, of_result. by rewrite Hfile.
  - intros Hfile. by rewrite (apply_run w filename _ _ st Hfile).
  - intros docs e st' Hfile Hloop.
    by rewrite (apply_run w filename _ _ st Hfile), Hloop.
Qed.

Lemma apply_file_level_witness :
  read_yaml Worlds.calm "missing.yaml"
  = Raise (OtherException "FileNotFoundError" "[Errno 2] No such file or directory")
  ∧ DescribeK8s.apply Worlds.calm "missing.yaml" (constructed "default")
    = (Ok tt,
       emit [Some "Error applying configuration: [Errno 2] No such file or directory"] 0
         (constructed "default")).
Proof.
  split; [reflexivity|].
  destruct (apply_file_level Worlds.calm "missing.yaml" (constructed "default"))
    as (Hmissing & _).
  exact (Hmissing _ eq_refl).
Defined.

(** X9.  The [kind] of a document.  A document that has a name and whose
    kind is ASCII text that, once lowercased, is none of [deployment],
    [service] and [pod] is skipped with [Unsupported resource kind: ]
    followed by the lowercased kind, without a call; a document that has a
    name and no [kind] key is skipped in the same way, with an empty kind.
    A [kind] that is null, a boolean, an integer, a list or a mapping
    raises [AttributeError] for its missing [lower], whether the document
    has a name or not, before any call; when the document is the first of
    its file, [apply] ends with that error as its error line. *)
Theorem apply_document_kind (w : world) (st : state) :
  (∀ items name spelling,
     Yaml.assoc "kind" items = Some (YStr spelling) →
     PyStr.is_ascii spelling = true →
     Yaml.metadata_name (YMap items) = Ok name →
     PyStr.lower spelling ∉ ["deployment"; "service"; "pod"] →
     DescribeK8s.apply_document w (YMap items) st
     = (Ok tt, emit [Some ("Unsupported resource kind: " +:+ PyStr.lower spelling)] 0 st))
  ∧ (∀ items name,
       Yaml.assoc "kind" items = None → Yaml.metadata_name (YMap items) = Ok name →
       DescribeK8s.apply_document w (YMap items) st
       = (Ok tt, emit [Some "Unsupported resource kind: "] 0 st))
  ∧ (∀ items v,
       Yaml.assoc "kind" items = Some v →
       v = YNull ∨ (∃ b, v = YBool b) ∨ (∃ n, v = YInt n)
       ∨ (∃ elements, v = YSeq elements) ∨ (∃ fields, v = YMap fields) →
       let e := AttributeError
                  ("'" +:+ Yaml.type_name v +:+ "' object has no attribute 'lower'") in
       DescribeK8s.apply_document w (YMap items) st = (Raise e, st)
       ∧ (∀ filename after trailing,
            read_yaml w filename = Ok (YMap items :: after, trailing) →
            DescribeK8s.apply w filename st
            = (Ok tt, emit [Some ("Error applying configuration: " +:+ exn_str e)] 0 st))).
Proof.
  assert (Hskip : ∀ doc kind name,
            Yaml.kind_lower doc = Ok kind → Yaml.metadata_name doc = Ok name →
            kind ≠ "deployment" → kind ≠ "service" → kind ≠ "pod" →
            DescribeK8s.apply_document w doc st
            = (Ok tt, emit [Some ("Unsupported resource kind: " +:+ kind)] 0 st)).
  { intros doc kind name Hkind Hname H1 H2 H3.
    unfold DescribeK8s.apply_document, bind, of_result. rewrite Hkind, Hname.
    by rewrite !decide_False by done. }
  repeat apply conj.
  - intros items name spelling Hsome _ Hname Hnot.
    apply (Hskip (YMap items) (PyStr.lower spelling) name); try done.
    + cbn. by rewrite Hsome.
    + intros H. apply Hnot. rewrite H. by left.
    + intros H. apply Hnot. rewrite H. right. by left.
    + intros H. apply Hnot. rewrite H. right. right. by left.
  - intros items name Hnone Hname.
    apply (Hskip (YMap items) "" name); try done.
    cbn. by rewrite Hnone.
  - intros items v Hsome Hv e.
    assert (Hdoc : DescribeK8s.apply_document w (YMap items) st = (Raise e, st)).
    { unfold DescribeK8s.apply_document, bind, of_result. cbn. rewrite Hsome. cbn.
      by destruct Hv as [->|[[b ->]|[[n ->]|[[elements ->]|[fields ->]]]]]. }
    split; [done|].
    intros filename after trailing Hfile.
    by rewrite (apply_run w filename _ _ st Hfile), for_each_cons, Hdoc.
Qed.

Lemma apply_document_kind_witness :
  Yaml.assoc "kind" [("kind", YStr "ConfigMap"); ("metadata", YMap [("name", YStr "settings")])]
  = Some (YStr "ConfigMap")
  ∧ PyStr.is_ascii "ConfigMap" = true
  ∧ (PyStr.lower "ConfigMap" ∉ ["deployment"; "service"; "pod"])
  ∧ DescribeK8s.apply_document Worlds.calm
      (YMap [("kind", YStr "ConfigMap"); ("metadata", YMap [("name", YStr "settings")])])
      (constructed "default")
    = (Ok tt, emit [Some "Unsupported resource kind: configmap"] 0 (constructed "default")).
Proof.
  assert (Hnot : PyStr.lower "ConfigMap" ∉ ["deployment"; "service"; "pod"])
    by (apply (bool_decide_unpack _); by vm_compute).
  split; [reflexivity|]. split; [reflexivity|]. split; [exact Hnot|].
  destruct (apply_document_kind Worlds.calm (constructed "default")) as (Hother & _).
  exact (Hother [("kind", YStr "ConfigMap"); ("metadata", YMap [("name", YStr "settings")])]
           (YStr "settings") "ConfigMap" eq_refl eq_refl eq_refl Hnot).
Defined.

(** X10.  [doc["metadata"]["name"]] returns exactly when the document is a
    mapping whose [metadata] is a mapping that has a [name], and then
    returns that entry; in every other case it raises [KeyError] (a key is
    missing) or [TypeError] (the document or its metadata is not a
    mapping). *)
Theorem metadata_name_spec (doc : yaml) :
  (∀ name,
     Yaml.metadata_name doc = Ok name
     ↔ ∃ items metadata,
         doc = YMap items
         ∧ Yaml.assoc "metadata" items = Some (YMap metadata)
         ∧ Yaml.assoc "name" metadata = Some name)
  ∧ (∀ e, Yaml.metadata_name doc = Raise e →
          (∃ msg, e = KeyError msg) ∨ (∃ msg, e = TypeError msg)).
Proof.
  split.
  - intros name. split.
    + unfold Yaml.metadata_name, Yaml.subscript.
      destruct doc as [| | | | |items]; try done.
      destruct (Yaml.assoc "metadata" items) as [metadata|] eqn:Hm; [|done].
      destruct metadata as [| | | | |fields]; try done.
      destruct (Yaml.assoc "name" fields) as [n|] eqn:Hn; [|done].
      intros [= <-]. by exists items, fields.
    + intros (items & metadata & -> & Hm & Hn).
      unfold Yaml.metadata_name, Yaml.subscript. by rewrite Hm, Hn.
  - intros e. unfold Yaml.metadata_name, Yaml.subscript.
    destruct doc as [| | | | |items]; try (intros [= <-]; eauto; fail).
    destruct (Yaml.assoc "metadata" items) as [metadata|]; [|intros [= <-]; eauto].
    destruct metadata as [| | | | |fields]; try (intros [= <-]; eauto; fail).
    destruct (Yaml.assoc "name" fields); [done|intros [= <-]; eauto].
Qed.

(** ** The start of [main] *)

(** X11.  When the kubeconfig cannot be loaded, [main] is left by the
    exception of the constructor, whatever the arguments: the one call made
    is the failed load, and nothing is written, not even the help text of a
    run without flags. *)
Theorem main_without_kubeconfig (w : world) (args : Args) (e : exn) :
  answer w [] (Client.load_kube_config None) = Raise e →
  main w args start
  = (Raise e,
     {| self := ∅; log := [Ev (Client.load_kube_config None) false];
        stdout := []; clock := 0 |}).
Proof.
  intros Ha. unfold main. rewrite bind_run, init_constructs. cbn [log start].
  by rewrite Ha.
Qed.

Lemma main_without_kubeconfig_witness :
  answer without_kubeconfig [] (Client.load_kube_config None)
  = Raise (OtherException "ConfigException" "Invalid kube-config file. No configuration found.")
  ∧ main without_kubeconfig no_args start
    = (Raise (OtherException "ConfigException"
                "Invalid kube-config file. No configuration found."),
       {| self := ∅; log := [Ev (Client.load_kube_config None) false];
          stdout := []; clock := 0 |}).
Proof.
  split; [reflexivity|].
  exact (main_without_kubeconfig without_kubeconfig no_args
           (OtherException "ConfigException"
              "Invalid kube-config file. No configuration found.") eq_refl).
Defined.

(** ** The calls of each operation *)

Lemma behaves_of_result_bind P s C {A B} (r : result A) (f : A → M B) :
  match r with
  | Ok a => behaves P s C (f a)
  | Raise e => C e = true
  end →
  behaves P s C (bind (of_result r) f).
Proof.
  destruct r as [a|e]; intros H.
  - intros st Hs. exact (H st Hs).
  - intros st Hs; cbn. split; [done|]. split.
    + exists []. by rewrite app_nil_r.
    + by intros e' [= <-].
Qed.

Lemma behaves_for_each_in P s C {A} (l : list A) body :
  (∀ x, x ∈ l → behaves P s C (body x)) → behaves P s C (for_each l body).
Proof.
  induction l as [|x l IH]; intros Hbody; [apply behaves_ret|].
  apply behaves_bind; [apply Hbody; by left|].
  intros _. apply IH. intros y Hy. apply Hbody. by right.
Qed.

Ltac walk w :=
  repeat (cbn beta zeta; first
    [ behave_leaf
    | by apply behaves_raise
    | by apply behaves_of_result
    | behave_getattr
    | apply behaves_getmethod_bind; [intros ?|done]
    | apply (behaves_extern w (λ _, true) (any_answer w)); [|done]
    | apply behaves_try_except with (C' := λ _, true); [| intros ? _ _ | done]
    | apply behaves_for_each; intros ?
    | apply behaves_bind; [|intros ?]
    | case_decide
    | case_match
    | done ]).

Section Calls.

Variable w : world.
Variable s : gmap string pyval.

Local Abbreviation sure o := (behaves (may_call w s o) s (λ _, true)).

Lemma create_or_update_calls P api_attr k kind name doc :
  (∀ ns, s !! "namespace" = Some ns →
         P (Client.create_namespaced k ns (Client.BodyDoc doc))
         ∧ P (Client.patch_namespaced k name ns (Client.BodyDoc doc))) →
  behaves P s (λ _, true) (DescribeK8s.create_or_update w api_attr k kind name doc).
Proof.
  intros HP. unfold DescribeK8s.create_or_update. walk w.
  all: by destruct (HP _ eq_refl).
Qed.

Lemma apply_calls filename : sure (Op.apply filename) (DescribeK8s.apply w filename).
Proof.
  unfold DescribeK8s.apply, DescribeK8s.apply_stream.
  apply behaves_try_except with (C' := λ _, true); [|intros; apply behaves_print|done].
  apply behaves_of_result_bind.
  destruct (read_yaml w filename) as [[docs trailing]|e] eqn:Hfile; [|done].
  apply behaves_bind; [|intros _; case_match; [by apply behaves_raise | apply behaves_ret]].
  apply behaves_for_each_in. intros doc Hdoc. cbn [fst] in Hdoc.
  unfold DescribeK8s.apply_document.
  apply behaves_of_result_bind.
  destruct (Yaml.kind_lower doc) as [kind|] eqn:Hkind; [|done].
  apply behaves_of_result_bind.
  destruct (Yaml.metadata_name doc) as [name|] eqn:Hname; [|done].
  assert (Hany : ∀ api_attr k, kind = Client.kind_name k →
            behaves (may_call w s (Op.apply filename)) s (λ _, true)
              (DescribeK8s.create_or_update w api_attr k kind name doc)).
  { intros api_attr k ->. apply create_or_update_calls. intros ns Hns.
    split; exists docs, trailing, doc, k, name, ns; eauto 10. }
  repeat case_decide; first [by apply Hany | apply behaves_print].
Qed.

Lemma create_calls resource_type name image replicas :
  sure (Op.create resource_type name image replicas)
    (DescribeK8s.create w resource_type name image replicas).
Proof.
  unfold DescribeK8s.create. walk w.
  all: eexists; split; [eassumption|]; eauto.
Qed.

(** Every operation keeps to its calls. *)
Lemma op_calls o : sure o (Op.run w o).
Proof.
  destruct o; cbn [Op.run].
  - unfold DescribeK8s.get_api_resources, invoke. walk w.
  - unfold DescribeK8s.get_api_server, configuration_host. walk w.
  - unfold DescribeK8s.get_kube_dns_info. walk w. all: cbn; eauto 10.
  - unfold DescribeK8s.get_kube_dns_url, DescribeK8s.get_kube_dns_info. walk w. all: cbn; eauto 10.
  - unfold DescribeK8s.print_api_versions. walk w.
  - unfold DescribeK8s.print_cluster_info, DescribeK8s.get_api_resources,
      configuration_host, invoke. walk w.
  - unfold DescribeK8s.get_nodes, invoke. walk w.
  - unfold DescribeK8s.get_all_namespaces, invoke. walk w.
  - unfold DescribeK8s.print_namespaces_info, DescribeK8s.print_namespace,
      DescribeK8s.get_all_namespaces, invoke. walk w.
  - unfold DescribeK8s.list_pods, DescribeK8s.print_pod. walk w. all: cbn; eauto 10.
  - unfold DescribeK8s.print_nodes_info, DescribeK8s.print_node,
      DescribeK8s.get_nodes, invoke. walk w.
  - unfold DescribeK8s.switch_context. walk w. all: cbn; eauto 10.
  - apply apply_calls.
  - apply create_calls.
Qed.

End Calls.

(** X12.  Each operation keeps to its own calls, in every world and on
    every instance: a listing operation makes only its listing call (in the
    current namespace when it is namespaced), [get_api_server] makes none,
    [switch_context] only reads the kubeconfig (the list of contexts, and
    the load of the context asked for), [apply] only creates or patches,
    in the current namespace, a document of the file under the kind and
    name the document gives, and [create] only creates the service or the
    deployment it built.  So no operation other than [apply] and [create]
    ever makes a create or patch call. *)
Theorem operations_keep_to_their_calls (w : world) (o : Op.t) (st : state) :
  ∃ evs,
    log (Op.run w o st).2 = log st ++ evs
    ∧ Forall (λ e, may_call w (self st) o (ev_call e)) evs
    ∧ (changes_cluster o = false → Forall (λ e, Client.writes (ev_call e) = None) evs).
Proof.
  destruct (op_calls w (self st) o st eq_refl) as (_ & (evs & Hlog & Hall) & _).
  exists evs. split; [done|]. split; [done|].
  intros Hro. eapply Forall_impl; [exact Hall|].
  intros [c ok] Hc. cbn in *.
  destruct o; try discriminate; cbn in Hc;
    repeat match goal with
           | H : ∃ _, _ |- _ => destruct H
           | H : _ ∧ _ |- _ => destruct H
           | H : _ ∨ _ |- _ => destruct H
           | H : False |- _ => destruct H
           end; by subst.
Qed.

Lemma operations_keep_to_their_calls_witness :
  changes_cluster Op.print_nodes_info = false
  ∧ ∃ evs,
      log (Op.run Inventory.world Op.print_nodes_info (constructed "default")).2
      = log (constructed "default") ++ evs
      ∧ Forall (λ e, ev_call e = Client.list_node) evs
      ∧ Forall (λ e, Client.writes (ev_call e) = None) evs.
Proof.
  split; [reflexivity|].
  destruct (operations_keep_to_their_calls Inventory.world Op.print_nodes_info
              (constructed "default")) as (evs & Hlog & Hall & Hro).
  exists evs. split; [exact Hlog|]. split; [exact Hall|]. apply Hro. reflexivity.
Defined.

(** ** Counting the calls *)

Section Counting.

Variable w : world.

Lemma no_call_ret {A} (a : A) : makes_no_call (ret a).
Proof. done. Qed.

Lemma no_call_raise {A} e : makes_no_call (raise (A := A) e).
Proof. done. Qed.

Lemma no_call_of_result {A} (r : result A) : makes_no_call (of_result r).
Proof. done. Qed.

Lemma no_call_print line : makes_no_call (print line).
Proof. done. Qed.

Lemma no_call_getattr attr : makes_no_call (getattr attr).
Proof. intros st. unfold getattr. by destruct (self st !! attr). Qed.

Lemma no_call_getmethod api c : makes_no_call (getmethod api c).
Proof. intros st. unfold getmethod. by destruct (Client.offers api c). Qed.

Lemma no_call_datetime_now : makes_no_call (datetime_now w).
Proof. done. Qed.

Lemma no_call_bind {A B} (m : M A) (f : A → M B) :
  makes_no_call m → (∀ a, makes_no_call (f a)) → makes_no_call (bind m f).
Proof.
  intros Hm Hf st. unfold bind. specialize (Hm st).
  destruct (m st) as [[a|e] st']; cbn in *; [|done]. by rewrite Hf.
Qed.

Lemma no_call_for_each {A} (l : list A) body :
  (∀ x, makes_no_call (body x)) → makes_no_call (for_each l body).
Proof.
  intros Hbody. induction l as [|x l IH]; [done|].
  apply no_call_bind; [apply Hbody | by intros _].
Qed.

Lemma at_most_no_call n {A} (m : M A) : makes_no_call m → makes_at_most n m.
Proof.
  intros Hm st. exists []. rewrite Hm, app_nil_r. split; [done|cbn; lia].
Qed.

Lemma at_most_extern n c : makes_at_most (S n) (extern w c).
Proof. intros st. eexists [_]. split; [done|cbn; lia]. Qed.

Lemma at_most_bind n k {A B} (m : M A) (f : A → M B) :
  makes_at_most n m → (∀ a, makes_at_most k (f a)) → makes_at_most (n + k) (bind m f).
Proof.
  intros Hm Hf st. unfold bind. destruct (Hm st) as (e1 & Hl1 & Hn).
  destruct (m st) as [[a|e] st']; cbn in *.
  - destruct (Hf a st') as (e2 & Hl2 & Hk). exists (e1 ++ e2).
    rewrite Hl2, Hl1, app_assoc, length_app. split; [done|lia].
  - exists e1. split; [done|lia].
Qed.

Lemma at_most_try_except n k {A} (m : M A) classes handler :
  makes_at_most n m → (∀ e, makes_at_most k (handler e)) →
  makes_at_most (n + k) (try_except m classes handler).
Proof.
  intros Hm Hh st. unfold try_except. destruct (Hm st) as (e1 & Hl1 & Hn).
  destruct (m st) as [[a|e] st']; cbn in *.
  - exists e1. split; [done|lia].
  - destruct (classes e).
    + destruct (Hh e st') as (e2 & Hl2 & Hk). exists (e1 ++ e2).
      rewrite Hl2, Hl1, app_assoc, length_app. split; [done|lia].
    + exists e1. split; [done|lia].
Qed.

Lemma at_most_for_each k {A} (l : list A) body :
  (∀ x, makes_at_most k (body x)) → makes_at_most (length l * k) (for_each l body).
Proof.
  intros Hbody. induction l as [|x l IH].
  - by apply at_most_no_call.
  - cbn [length Nat.mul]. apply at_most_bind; [apply Hbody | by intros _].
Qed.

Lemma at_most_after_no_call n {A B} (m : M A) (f : A → M B) :
  makes_no_call m → (∀ a, makes_at_most n (f a)) → makes_at_most n (bind m f).
Proof. intros Hm Hf. apply (at_most_bind 0 n); [by apply at_most_no_call | done]. Qed.

Lemma at_most_before_no_call n {A B} (m : M A) (f : A → M B) :
  makes_at_most n m → (∀ a, makes_no_call (f a)) → makes_at_most n (bind m f).
Proof.
  intros Hm Hf st. destruct (at_most_bind n 0 m f Hm
                               (λ a, at_most_no_call 0 (f a) (Hf a)) st)
    as (evs & Hlog & Hlen).
  exists evs. split; [done|lia].
Qed.

Lemma at_most_after_extern n {A} c (f : Client.returns c → M A) :
  (∀ a, makes_at_most n (f a)) → makes_at_most (S n) (bind (extern w c) f).
Proof. intros Hf. apply (at_most_bind 1 n); [apply at_most_extern | done]. Qed.

End Counting.

Ltac hush w :=
  repeat first
    [ apply no_call_ret | apply no_call_raise | apply no_call_of_result
    | apply no_call_print | apply no_call_getattr | apply no_call_getmethod
    | apply (no_call_datetime_now w)
    | apply no_call_for_each; intros ?
    | apply no_call_bind; [|intros ?]
    | case_decide
    | case_match ].

Ltac count w :=
  repeat (cbn beta zeta; first
    [ progress intros
    | apply at_most_no_call; solve [hush w]
    | apply (at_most_after_extern w); intros ?
    | apply at_most_after_no_call; [solve [hush w] | intros ?]
    | apply (at_most_extern w)
    | apply at_most_before_no_call; [|intros ?; solve [hush w]]
    | case_decide
    | case_match ]).

Section Budget.

Variable w : world.

Lemma create_or_update_at_most api_attr k kind name doc :
  makes_at_most 2 (DescribeK8s.create_or_update w api_attr k kind name doc).
Proof.
  unfold DescribeK8s.create_or_update.
  do 3 (apply at_most_after_no_call; [solve [hush w]|intros ?]).
  apply (at_most_try_except 1 1); [|intros e]; count w.
Qed.

Lemma apply_document_at_most doc : makes_at_most 2 (DescribeK8s.apply_document w doc).
Proof.
  unfold DescribeK8s.apply_document.
  do 2 (apply at_most_after_no_call; [solve [hush w]|intros ?]).
  repeat case_decide;
    first [apply create_or_update_at_most | apply at_most_no_call, no_call_print].
Qed.

Lemma op_budget o : makes_at_most (call_budget w o) (Op.run w o).
Proof.
  destruct o; cbn [Op.run call_budget].
  - unfold DescribeK8s.get_api_resources, invoke.
    apply (at_most_bind 1 0); [|intros; by apply at_most_no_call].
    apply (at_most_try_except 1 0); count w.
  - unfold DescribeK8s.get_api_server, configuration_host.
    apply at_most_no_call. hush w.
  - unfold DescribeK8s.get_kube_dns_info.
    apply (at_most_bind 1 0); [|intros; by apply at_most_no_call].
    apply (at_most_try_except 1 0); count w.
  - unfold DescribeK8s.get_kube_dns_url, DescribeK8s.get_kube_dns_info.
    apply (at_most_bind 1 0); [|intros; by apply at_most_no_call].
    apply (at_most_bind 1 0); [|intros; apply at_most_no_call; hush w].
    apply (at_most_try_except 1 0); count w.
  - unfold DescribeK8s.print_api_versions.
    apply (at_most_try_except 1 0); count w.
  - unfold DescribeK8s.print_cluster_info, DescribeK8s.get_api_resources,
      configuration_host, invoke.
    apply (at_most_bind 1 0); [|intros; apply at_most_no_call; hush w].
    apply (at_most_try_except 1 0); count w.
  - unfold DescribeK8s.get_nodes, invoke.
    apply (at_most_bind 1 0); [|intros; by apply at_most_no_call].
    apply (at_most_try_except 1 0); count w.
  - unfold DescribeK8s.get_all_namespaces, invoke.
    apply (at_most_bind 1 0); [|intros; by apply at_most_no_call].
    apply (at_most_try_except 1 0); count w.
  - unfold DescribeK8s.print_namespaces_info, DescribeK8s.print_namespace,
      DescribeK8s.get_all_namespaces, invoke.
    apply (at_most_bind 1 0); [|intros; apply at_most_no_call; hush w].
    apply (at_most_try_except 1 0); count w.
  - unfold DescribeK8s.list_pods, DescribeK8s.print_pod.
    apply (at_most_try_except 1 0); count w.
  - unfold DescribeK8s.print_nodes_info, DescribeK8s.print_node,
      DescribeK8s.get_nodes, invoke.
    apply (at_most_bind 1 0); [|intros; apply at_most_no_call; hush w].
    apply (at_most_try_except 1 0); count w.
  - unfold DescribeK8s.switch_context.
    apply (at_most_bind 2 0); [|intros; by apply at_most_no_call].
    apply (at_most_try_except 2 0); count w.
  - intros st.
    destruct (read_yaml w filename) as [[docs trailing]|e] eqn:Hfile.
    + rewrite (apply_run w filename docs trailing st Hfile).
      destruct (at_most_for_each 2 docs (DescribeK8s.apply_document w)
                  apply_document_at_most st) as (evs & Hlog & Hlen).
      exists evs. split; [|lia].
      destruct (for_each docs (DescribeK8s.apply_document w) st) as [[[]|e] st'];
        [destruct trailing|]; exact Hlog.
    + exists []. split; [|done].
      unfold DescribeK8s.apply, try_except, bind, of_result. rewrite Hfile. cbn.
      by rewrite app_nil_r.
  - unfold DescribeK8s.create.
    apply (at_most_try_except 1 0); count w.
Qed.

End Budget.

(** X13.  The number of calls of an operation is bounded, in every world
    and on every instance: at most one call for a listing operation and for
    [create], none for [get_api_server], at most two for [switch_context],
    and at most two per document of the file for [apply] (none when the
    file cannot be read). *)
Theorem operations_call_budget (w : world) (o : Op.t) (st : state) :
  ∃ evs,
    log (Op.run w o st).2 = log st ++ evs
    ∧ (length evs ≤ call_budget w o)%nat.
Proof. apply op_budget. Qed.

(** ** Where the help text appears *)

Section Text.

Variable w : world.

Lemma text_silent {A} (m : M A) : (∀ st, stdout (m st).2 = stdout st) → writes_text m.
Proof. intros Hm st. exists []. by rewrite Hm, app_nil_r. Qed.

Lemma text_ret {A} (a : A) : writes_text (ret a).
Proof. by apply text_silent. Qed.

Lemma text_raise {A} e : writes_text (raise (A := A) e).
Proof. by apply text_silent. Qed.

Lemma text_of_result {A} (r : result A) : writes_text (of_result r).
Proof. by apply text_silent. Qed.

Lemma text_getattr attr : writes_text (getattr attr).
Proof. apply text_silent. intros st. unfold getattr. by destruct (self st !! attr). Qed.

Lemma text_setattr attr v : writes_text (setattr attr v).
Proof. by apply text_silent. Qed.

Lemma text_getmethod api c : writes_text (getmethod api c).
Proof.
  apply text_silent. intros st. unfold getmethod. by destruct (Client.offers api c).
Qed.

Lemma text_extern c : writes_text (extern w c).
Proof. by apply text_silent. Qed.

Lemma text_datetime_now : writes_text (datetime_now w).
Proof. by apply text_silent. Qed.

Lemma text_print line : writes_text (print line).
Proof. intros st. by exists [line]. Qed.

Lemma text_bind {A B} (m : M A) (f : A → M B) :
  writes_text m → (∀ a, writes_text (f a)) → writes_text (bind m f).
Proof.
  intros Hm Hf st. unfold bind. destruct (Hm st) as (l1 & H1).
  destruct (m st) as [[a|e] st']; cbn in *; [|by exists l1].
  destruct (Hf a st') as (l2 & H2). exists (l1 ++ l2).
  by rewrite H2, H1, fmap_app, app_assoc.
Qed.

Lemma text_try_except {A} (m : M A) classes handler :
  writes_text m → (∀ e, writes_text (handler e)) →
  writes_text (try_except m classes handler).
Proof.
  intros Hm Hh st. unfold try_except. destruct (Hm st) as (l1 & H1).
  destruct (m st) as [[a|e] st']; cbn in *; [by exists l1|].
  destruct (classes e); [|by exists l1].
  destruct (Hh e st') as (l2 & H2). exists (l1 ++ l2).
  by rewrite H2, H1, fmap_app, app_assoc.
Qed.

Lemma text_for_each {A} (l : list A) body :
  (∀ x, writes_text (body x)) → writes_text (for_each l body).
Proof.
  intros Hbody. induction l as [|x l IH]; [apply text_ret|].
  apply text_bind; [apply Hbody | by intros _].
Qed.

End Text.

Ltac speak w :=
  repeat (cbn beta zeta; first
    [ progress intros
    | apply text_ret | apply text_raise | apply text_of_result | apply text_print
    | apply text_getattr | apply text_setattr | apply text_getmethod
    | apply (text_extern w) | apply (text_datetime_now w)
    | apply text_try_except
    | apply text_for_each
    | apply text_bind
    | case_decide
    | case_match ]).

Lemma op_text w o : writes_text (Op.run w o).
Proof.
  destruct o; cbn [Op.run];
    unfold DescribeK8s.get_api_resources, DescribeK8s.get_api_server,
      DescribeK8s.get_kube_dns_url, DescribeK8s.get_kube_dns_info,
      DescribeK8s.print_api_versions, DescribeK8s.print_cluster_info,
      DescribeK8s.get_nodes, DescribeK8s.get_all_namespaces,
      DescribeK8s.print_namespaces_info, DescribeK8s.print_namespace,
      DescribeK8s.list_pods, DescribeK8s.print_pod, DescribeK8s.print_nodes_info,
      DescribeK8s.print_node, DescribeK8s.switch_context, DescribeK8s.apply,
      DescribeK8s.apply_stream, DescribeK8s.apply_document, DescribeK8s.create_or_update,
      DescribeK8s.create, DescribeK8s.get_api_resources, DescribeK8s.get_nodes,
      DescribeK8s.get_all_namespaces, configuration_host, invoke;
    speak w.
Qed.

Lemma dispatch_text w args : writes_text (dispatch w args).
Proof.
  unfold dispatch.
  destruct (cluster_info args); [exact (op_text w Op.print_cluster_info)|].
  destruct (api_versions args); [exact (op_text w Op.print_api_versions)|].
  destruct (nodes args); [exact (op_text w Op.print_nodes_info)|].
  destruct (list_namespaces args); [exact (op_text w Op.print_namespaces_info)|].
  destruct (truthy_arg (switch_context args)); [exact (op_text w (Op.switch_context _))|].
  destruct (truthy_arg (apply args)); [exact (op_text w (Op.apply _))|].
  destruct (create args) as [[[resource_type name] image]|];
    [exact (op_text w (Op.create _ _ _ _)) | apply text_ret].
Qed.

Lemma before_the_last_step_text w args :
  writes_text
    (DescribeK8s.__init__ w "default" ;;
     (if truthy_arg (namespace args)
      then DescribeK8s.set_namespace (default "" (namespace args))
      else ret tt) ;;
     dispatch w args).
Proof.
  apply text_bind; [unfold DescribeK8s.__init__; speak w|intros _].
  apply text_bind; [|intros _; apply dispatch_text].
  destruct (truthy_arg (namespace args)); [apply text_setattr | apply text_ret].
Qed.

Lemma main_steps w args st :
  main w args st
  = ((DescribeK8s.__init__ w "default" ;;
      (if truthy_arg (namespace args)
       then DescribeK8s.set_namespace (default "" (namespace args))
       else ret tt) ;;
      dispatch w args) ;;
     if list_pods args then DescribeK8s.list_pods w else print_help) st.
Proof.
  unfold main, bind.
  destruct (DescribeK8s.__init__ w "default" st) as [[[]|?] st1]; [|done].
  by destruct ((if truthy_arg (namespace args)
                then DescribeK8s.set_namespace (default "" (namespace args))
                else ret tt) st1) as [[[]|?] st2].
Qed.

(** X14.  Where the help text appears in the output of [main].  With
    [--list-pods] it never appears, whatever else is given.  Without
    [--list-pods], a run that returns writes it exactly once, as its last
    line, after the lines of the action. *)
Theorem main_help_placement (w : world) (args : Args) :
  (list_pods args = true → None ∉ stdout (main w args start).2)
  ∧ (list_pods args = false →
     ∀ st, main w args start = (Ok tt, st) →
           ∃ lines : list string, stdout st = (Some <$> lines) ++ [None]).
Proof.
  split.
  - intros Hpods.
    assert (Htext : writes_text (main w args)).
    { intros st. rewrite main_steps, Hpods.
      revert st. apply text_bind; [apply before_the_last_step_text|intros _].
      exact (op_text w Op.list_pods). }
    destruct (Htext start) as (lines & ->). cbn.
    intros (line & [=] & _)%list_elem_of_fmap.
  - intros Hpods st. rewrite main_steps, Hpods, bind_run.
    destruct (before_the_last_step_text w args start) as (lines & Hlines).
    destruct (bind (DescribeK8s.__init__ w "default") _ start) as [[[]|e] st'];
      [|by intros [=]].
    intros [= <-]. exists lines. cbn in *. by rewrite Hlines.
Qed.

Lemma main_help_placement_witness :
  list_pods nodes_and_pods = true
  ∧ (None ∉ stdout (main Inventory.world nodes_and_pods start).2)
  ∧ list_pods nodes_only = false
  ∧ ∃ lines : list string,
      stdout (main Inventory.world nodes_only start).2 = (Some <$> lines) ++ [None].
Proof.
  split; [reflexivity|].
  split; [exact (proj1 (main_help_placement Inventory.world nodes_and_pods) eq_refl)|].
  split; [reflexivity|].
  assert (Hrun : main Inventory.world nodes_only start
                 = (Ok tt, (main Inventory.world nodes_only start).2))
    by (vm_compute; reflexivity).
  exact (proj2 (main_help_placement Inventory.world nodes_only) eq_refl _ Hrun).
Defined.

(** ** Setting the namespace, creating a service *)

(** X15.  [set_namespace] always returns; it changes the attribute
    [namespace] and nothing else (no other attribute, no call, no output);
    of two settings in a row only the second counts; and every namespaced
    call of whatever operation runs next targets the namespace set. *)
Theorem set_namespace_takes_effect (w : world) (st : state) (ns : string) :
  let st1 := (DescribeK8s.set_namespace ns st).2 in
  (DescribeK8s.set_namespace ns st).1 = Ok tt
  ∧ self st1 !! "namespace" = Some (VStr ns)
  ∧ (∀ attr, attr ≠ "namespace" → self st1 !! attr = self st !! attr)
  ∧ log st1 = log st
  ∧ stdout st1 = stdout st
  ∧ (∀ ns', (DescribeK8s.set_namespace ns ;; DescribeK8s.set_namespace ns') st
            = DescribeK8s.set_namespace ns' st)
  ∧ (∀ o, ∃ evs,
       log (Op.run w o st1).2 = log st ++ evs
       ∧ Forall (λ e, ∀ n, Client.target (ev_call e) = Some n → n = VStr ns) evs).
Proof.
  intros st1. repeat apply conj; try done.
  - cbn. by rewrite lookup_insert_eq.
  - intros attr Hattr. cbn. by rewrite lookup_insert_ne.
  - intros ns'. unfold DescribeK8s.set_namespace, bind, setattr; cbn.
    by rewrite insert_insert_eq.
  - intros o.
    destruct (op_behaves w (self st1) o st1 eq_refl) as (_ & (evs & Hlog & Hall) & _).
    exists evs. split; [exact Hlog|].
    eapply Forall_impl; [exact Hall|]. intros e [He _] n Hn.
    specialize (He n Hn). cbn in He. rewrite lookup_insert_eq in He. congruence.
Qed.

(** X16.  [create] of a service (the type in any letter case) makes one
    create call in the current namespace and, when the call returns,
    writes [Service '<name>' created.]; the image and the replica count
    play no part in it. *)
Theorem create_service_run (w : world) (st : state) (ns : pyval)
    (resource_type name : string) (image : option string) (replicas : option Z) :
  self st !! "v1" = Some VCoreV1Api →
  self st !! "namespace" = Some ns →
  PyStr.lower resource_type = "service" →
  let c := Client.create_namespaced Client.Service ns
             (Client.BodyService (Build.service name)) in
  (answer w (log st) c = Ok tt →
   DescribeK8s.create w resource_type name image replicas st
   = (Ok tt, emit [Some ("Service '" +:+ name +:+ "' created.")] 0 (logged (Ev c true) st)))
  ∧ (∀ image' replicas',
       DescribeK8s.create w resource_type name image' replicas' st
       = DescribeK8s.create w resource_type name image replicas st).
Proof.
  intros Hv1 Hns Hrt c. split.
  - intros Ha. unfold DescribeK8s.create. rewrite Hrt.
    rewrite decide_False by done. rewrite decide_True by done.
    unfold try_except, bind, getattr, getmethod, extern.
    rewrite Hv1. cbn. rewrite Hns. cbn. fold c. by rewrite Ha.
  - intros image' replicas'. unfold DescribeK8s.create. rewrite Hrt.
    rewrite decide_False by done. by rewrite !decide_True by done.
Qed.

Lemma create_service_run_witness :
  self (constructed "default") !! "v1" = Some VCoreV1Api
  ∧ self (constructed "default") !! "namespace" = Some (VStr "default")
  ∧ PyStr.lower "Service" = "service"
  ∧ DescribeK8s.create Worlds.calm "Service" "web" (Some "nginx") (Some 3)
      (constructed "default")
    = (Ok tt,
       emit [Some "Service 'web' created."] 0
         (logged (Ev (Client.create_namespaced Client.Service (VStr "default")
                        (Client.BodyService (Build.service "web"))) true)
            (constructed "default"))).
Proof.
  split; [reflexivity|]. split; [reflexivity|]. split; [reflexivity|].
  destruct (create_service_run Worlds.calm (constructed "default") (VStr "default")
              "Service" "web" (Some "nginx") (Some 3) eq_refl eq_refl eq_refl)
    as (Hok & _).
  exact (Hok eq_refl).
Defined.
